(** * Job queue manager of the printer fleet database: model and properties

    Shallow embedding of [manager/jobs.py] (class [DBManagerJobs]) together
    with the parts of [models/printers.py] and [models/files.py] it reads
    and writes.  The relational store is a record of tables; an ORM object
    handed to a manager method is a reference to a row, so methods take the
    row's key and read and write the shared store.  A Python exception
    leaves the store as it was at the [raise]: the outcome [Raised] carries
    that store.

    Modelled from the spec: the helpers of [manager/base_class.py], which is
    not among the sources, are the repository facade of the specification:
    [execute_query] returns the list of rows of a query, or its first row
    (or [None]) with [use_list=False]; [execute_update] is the set-based
    update of all rows of a query; [commit_changes] ends the transaction and
    changes no row. *)

From Stdlib Require Import ZArith Lia.
From stdpp Require Import gmap strings list fin_maps sorting.

Open Scope Z_scope.

(** ** Rows of the tables *)

(** The five seeded rows of the job states table.  [job_state_ids] maps the
    state strings to the ids of these rows; a job's [idState] is compared
    only against entries of that dictionary, so the row is named by its
    state string. *)
Inductive JobState := Created | Waiting | Printing | Finished | Done.

#[global] Instance JobState_eq_dec : EqDecision JobState.
Proof. solve_decision. Defined.

Module Job.
(** Modelled from the spec: the jobs table is declared in [models/jobs.py],
    which is not among the sources.  The columns are those [manager/jobs.py]
    reads or writes, typed as in the data model of the specification.  The
    primary key [id] is the key of the table in the store.  Time stamps are
    clock readings, durations are seconds, [progress] is a percentage (the
    manager writes only the constants [0.0] and [100.0]). *)
Record t := mk {
  name : string;
  idState : JobState;
  idFile : Z;
  idUser : Z;
  priority_i : option Z;
  canBePrinted : bool;
  retries : Z;
  progress : Z;
  startedAt : option Z;
  finishedAt : option Z;
  estimatedTimeLeft : option Z;
  interrupted : bool;
  succeed : option bool
}.

Definition set_idState (v : JobState) (j : t) : t :=
  mk (name j) v (idFile j) (idUser j) (priority_i j) (canBePrinted j) (retries j)
     (progress j) (startedAt j) (finishedAt j) (estimatedTimeLeft j) (interrupted j) (succeed j).
Definition set_priority_i (v : option Z) (j : t) : t :=
  mk (name j) (idState j) (idFile j) (idUser j) v (canBePrinted j) (retries j)
     (progress j) (startedAt j) (finishedAt j) (estimatedTimeLeft j) (interrupted j) (succeed j).
Definition set_canBePrinted (v : bool) (j : t) : t :=
  mk (name j) (idState j) (idFile j) (idUser j) (priority_i j) v (retries j)
     (progress j) (startedAt j) (finishedAt j) (estimatedTimeLeft j) (interrupted j) (succeed j).
Definition set_retries (v : Z) (j : t) : t :=
  mk (name j) (idState j) (idFile j) (idUser j) (priority_i j) (canBePrinted j) v
     (progress j) (startedAt j) (finishedAt j) (estimatedTimeLeft j) (interrupted j) (succeed j).
Definition set_progress (v : Z) (j : t) : t :=
  mk (name j) (idState j) (idFile j) (idUser j) (priority_i j) (canBePrinted j) (retries j)
     v (startedAt j) (finishedAt j) (estimatedTimeLeft j) (interrupted j) (succeed j).
Definition set_startedAt (v : option Z) (j : t) : t :=
  mk (name j) (idState j) (idFile j) (idUser j) (priority_i j) (canBePrinted j) (retries j)
     (progress j) v (finishedAt j) (estimatedTimeLeft j) (interrupted j) (succeed j).
Definition set_finishedAt (v : option Z) (j : t) : t :=
  mk (name j) (idState j) (idFile j) (idUser j) (priority_i j) (canBePrinted j) (retries j)
     (progress j) (startedAt j) v (estimatedTimeLeft j) (interrupted j) (succeed j).
Definition set_estimatedTimeLeft (v : option Z) (j : t) : t :=
  mk (name j) (idState j) (idFile j) (idUser j) (priority_i j) (canBePrinted j) (retries j)
     (progress j) (startedAt j) (finishedAt j) v (interrupted j) (succeed j).
Definition set_interrupted (v : bool) (j : t) : t :=
  mk (name j) (idState j) (idFile j) (idUser j) (priority_i j) (canBePrinted j) (retries j)
     (progress j) (startedAt j) (finishedAt j) (estimatedTimeLeft j) v (succeed j).
Definition set_succeed (v : option bool) (j : t) : t :=
  mk (name j) (idState j) (idFile j) (idUser j) (priority_i j) (canBePrinted j) (retries j)
     (progress j) (startedAt j) (finishedAt j) (estimatedTimeLeft j) (interrupted j) v.
End Job.

Module File.
(** [models/files.py], class [File]: the column the job manager reads. *)
Record t := mk { estimatedPrintingTime : option Z }.
End File.

Module Printer.
(** [models/printers.py], class [Printer]: the columns the job manager
    touches.  [idCurrentJob] is the foreign key behind the relationship
    [Printer.current_job] / [Job.assigned_printer]. *)
Record t := mk {
  id : Z;
  idState : Z;
  idCurrentJob : option Z
}.

Definition set_idCurrentJob (v : option Z) (p : t) : t := mk (id p) (idState p) v.
End Printer.

Module PrinterExtruder.
(** [models/printers.py], class [PrinterExtruder]; both [idExtruderType]
    and [idMaterial] are nullable. *)
Record t := mk {
  idPrinter : Z;
  idExtruderType : option Z;
  idMaterial : option Z;
  index : Z
}.
End PrinterExtruder.

Module JobAllowedMaterial.
(** Modelled from the spec: the three constraint and usage tables of a job
    are declared in [models/jobs.py]; their columns are those the manager
    and [tests/models/test_job_models.py] pass to the constructors. *)
Record t := mk { idJob : Z; idMaterial : Z; extruderIndex : Z }.
End JobAllowedMaterial.

Module JobAllowedExtruder.
Record t := mk { idJob : Z; idExtruderType : Z; extruderIndex : Z }.
End JobAllowedExtruder.

Module JobExtruder.
Record t := mk {
  idJob : Z;
  extruderIndex : Z;
  idUsedExtruderType : option Z;
  idUsedMaterial : option Z
}.

Definition set_used (ty mat : option Z) (r : t) : t := mk (idJob r) (extruderIndex r) ty mat.
End JobExtruder.

(** ** The store *)

(** Jobs are keyed by their primary key.  The other tables are lists in
    storage order, which is the order an unordered query returns; a row of
    such a table is referred to by its position.  [printer_states] gives
    [PrinterState.isOperationalState] by state id. *)
Record Store := mkStore {
  jobs : gmap Z Job.t;
  files : gmap Z File.t;
  printer_states : gmap Z bool;
  printers : list Printer.t;
  printer_extruders : list PrinterExtruder.t;
  job_allowed_materials : list JobAllowedMaterial.t;
  job_allowed_extruders : list JobAllowedExtruder.t;
  job_extruders : list JobExtruder.t
}.

Definition set_jobs (v : gmap Z Job.t) (s : Store) : Store :=
  mkStore v (files s) (printer_states s) (printers s) (printer_extruders s)
          (job_allowed_materials s) (job_allowed_extruders s) (job_extruders s).
Definition set_printers (v : list Printer.t) (s : Store) : Store :=
  mkStore (jobs s) (files s) (printer_states s) v (printer_extruders s)
          (job_allowed_materials s) (job_allowed_extruders s) (job_extruders s).
Definition set_job_extruders (v : list JobExtruder.t) (s : Store) : Store :=
  mkStore (jobs s) (files s) (printer_states s) (printers s) (printer_extruders s)
          (job_allowed_materials s) (job_allowed_extruders s) v.

(** ** Exceptions and the manager monad *)

(** [InvalidParameter] is the manager's own exception ([manager/exceptions.py]);
    the others are the built-in ones the methods can run into. *)
Inductive Exn :=
  | InvalidParameter (msg : string)
  | IndexError
  | AttributeError
  | TypeError.

(** The Python class name of an exception. *)
Definition exn_name (e : Exn) : string :=
  match e with
  | InvalidParameter _ => "InvalidParameter"
  | IndexError => "IndexError"
  | AttributeError => "AttributeError"
  | TypeError => "TypeError"
  end.

(** Outcome of a method call: a value and the store after the call, or an
    exception and the store at the moment it was raised.  [Detached] stands
    for a call on a reference that names no row of the store, which no
    caller holding a live ORM object can make. *)
Inductive Result (A : Type) :=
  | Ok (a : A) (s : Store)
  | Raised (e : Exn) (s : Store)
  | Detached.
Arguments Ok {A} a s.
Arguments Raised {A} e s.
Arguments Detached {A}.

Definition M (A : Type) : Type := Store → Result A.

Definition ret {A} (a : A) : M A := λ s, Ok a s.
Definition raise {A} (e : Exn) : M A := λ s, Raised e s.
Definition bind {A B} (m : M A) (k : A → M B) : M B :=
  λ s, match m s with
       | Ok a s' => k a s'
       | Raised e s' => Raised e s'
       | Detached => Detached
       end.
Definition gets {A} (f : Store → A) : M A := λ s, Ok (f s) s.
Definition modify (f : Store → Store) : M unit := λ s, Ok tt (f s).

Notation "'let*' x ':=' m 'in' k" := (bind m (λ x, k))
  (at level 10, x name, m at level 100, k at level 200).

(** The store a call leaves behind, whatever its outcome. *)
Definition store_after {A} (s : Store) (r : Result A) : Store :=
  match r with
  | Ok _ s' => s'
  | Raised _ s' => s'
  | Detached => s
  end.

(** Dereference a job object. *)
Definition get_job (jid : Z) : M Job.t :=
  λ s, match jobs s !! jid with
       | Some job => Ok job s
       | None => Detached
       end.

(** Dereference a printer object. *)
Definition get_printer (pos : nat) : M Printer.t :=
  λ s, match printers s !! pos with
       | Some printer => Ok printer s
       | None => Detached
       end.

(** ** Capability matcher *)

(** Truth value of a Python list. *)
Definition truthy {A} (l : list A) : bool :=
  match l with
  | [] => false
  | _ :: _ => true
  end.

(** [get_job_allowed_materials(job, extruder_index)]: the materials of the
    job's rows for that index; a material object is named by its id. *)
Definition get_job_allowed_materials (s : Store) (jid : Z) (extruder_index : Z) : list Z :=
  JobAllowedMaterial.idMaterial <$>
    filter (λ r, JobAllowedMaterial.idJob r = jid ∧
                 JobAllowedMaterial.extruderIndex r = extruder_index)
           (job_allowed_materials s).

(** [get_job_allowed_extruder_types(job, extruder_index)]. *)
Definition get_job_allowed_extruder_types (s : Store) (jid : Z) (extruder_index : Z) : list Z :=
  JobAllowedExtruder.idExtruderType <$>
    filter (λ r, JobAllowedExtruder.idJob r = jid ∧
                 JobAllowedExtruder.extruderIndex r = extruder_index)
           (job_allowed_extruders s).

(** [x in allowed] for the object behind a nullable foreign key: [None] is
    never a member of a list of rows. *)
Definition is_in (x : option Z) (allowed : list Z) : bool :=
  match x with
  | Some v => bool_decide (v ∈ allowed)
  | None => false
  end.

(** The relationship [printer.extruders], ordered by extruder index. *)
Definition index_le (a b : PrinterExtruder.t) : Prop :=
  PrinterExtruder.index a ≤ PrinterExtruder.index b.

#[global] Instance index_le_dec a b : Decision (index_le a b).
Proof. unfold index_le. apply _. Defined.

Definition extruders (s : Store) (printer : Printer.t) : list PrinterExtruder.t :=
  merge_sort index_le
    (filter (λ e, PrinterExtruder.idPrinter e = Printer.id printer) (printer_extruders s)).

(** One extruder against the job's constraints for its index: [true] when
    one of the two [if]s of the inner loop fires. *)
Definition extruder_mismatch (s : Store) (jid : Z) (extruder : PrinterExtruder.t) : bool :=
  let allowed_materials := get_job_allowed_materials s jid (PrinterExtruder.index extruder) in
  if truthy allowed_materials && negb (is_in (PrinterExtruder.idMaterial extruder) allowed_materials)
  then true
  else
    let allowed_extruder_types :=
      get_job_allowed_extruder_types s jid (PrinterExtruder.index extruder) in
    truthy allowed_extruder_types &&
      negb (is_in (PrinterExtruder.idExtruderType extruder) allowed_extruder_types).

(** The inner loop [for extruder in printer.extruders]: [true] when it
    leaves through [del usable_printers[i]; break]. *)
Fixpoint extruders_loop (s : Store) (jid : Z) (exts : list PrinterExtruder.t) : bool :=
  match exts with
  | [] => false
  | extruder :: rest =>
      if extruder_mismatch s jid extruder then true else extruders_loop s jid rest
  end.

(** The outer loop [for i in range(len(usable_printers))].  The range is
    fixed before the loop starts while the list shrinks under [del];
    [usable_printers[i]] past the end is an [IndexError] ([None]). *)
Fixpoint printers_loop (s : Store) (jid : Z) (indexes : list nat)
    (usable_printers : list Printer.t) : option (list Printer.t) :=
  match indexes with
  | [] => Some usable_printers
  | i :: rest =>
      match usable_printers !! i with
      | None => None
      | Some printer =>
          if extruders_loop s jid (extruders s printer)
          then printers_loop s jid rest (delete i usable_printers)
          else printers_loop s jid rest usable_printers
      end
  end.

(** The query for the working printers: a join with the printer states
    filtered on [isOperationalState]. *)
Definition working_printers (s : Store) : list Printer.t :=
  filter (λ p, printer_states s !! Printer.idState p = Some true) (printers s).

(** [check_can_be_printed_job(job, return_usable_printers=True)]. *)
Definition check_can_be_printed_job_printers (jid : Z) : M (list Printer.t) :=
  λ s, let usable_printers := working_printers s in
       match printers_loop s jid (seq 0 (length usable_printers)) usable_printers with
       | Some usable_printers' => Ok usable_printers' s
       | None => Raised IndexError s
       end.

(** [check_can_be_printed_job(job)]. *)
Definition check_can_be_printed_job (jid : Z) : M bool :=
  let* usable_printers := check_can_be_printed_job_printers jid in
  ret (truthy usable_printers).

(** *** The matcher as the specification words it

    A printer passes an extruder index when neither the allowed-material nor
    the allowed-extruder-type constraint declared for that index excludes
    what the extruder holds; it survives when it passes at every one of its
    extruder indexes; the result is the operational printers that survive. *)
Definition passes_index (s : Store) (jid : Z) (extruder : PrinterExtruder.t) : bool :=
  let idx := PrinterExtruder.index extruder in
  (negb (truthy (get_job_allowed_materials s jid idx)) ||
   is_in (PrinterExtruder.idMaterial extruder) (get_job_allowed_materials s jid idx)) &&
  (negb (truthy (get_job_allowed_extruder_types s jid idx)) ||
   is_in (PrinterExtruder.idExtruderType extruder) (get_job_allowed_extruder_types s jid idx)).

Definition survives (s : Store) (jid : Z) (printer : Printer.t) : bool :=
  forallb (passes_index s jid)
    (filter (λ e, PrinterExtruder.idPrinter e = Printer.id printer) (printer_extruders s)).

Definition isPrintable_printers (s : Store) (jid : Z) : list Printer.t :=
  filter (λ p, survives s jid p = true) (working_printers s).

Definition isPrintable (s : Store) (jid : Z) : bool :=
  truthy (isPrintable_printers s jid).

(** ** Updating a job *)

(** Keyword arguments of [update_job].  [Kw_other] is any key for which
    [hasattr(Job, key)] is false. *)
Inductive Kwarg :=
  | Kw_priority_i (v : option Z)
  | Kw_idState (v : JobState)
  | Kw_canBePrinted (v : bool)
  | Kw_retries (v : Z)
  | Kw_progress (v : Z)
  | Kw_startedAt (v : option Z)
  | Kw_finishedAt (v : option Z)
  | Kw_estimatedTimeLeft (v : option Z)
  | Kw_interrupted (v : bool)
  | Kw_succeed (v : bool)
  | Kw_assigned_printer_None
  | Kw_other (key : string).

(** The relationship [job.assigned_printer]: the printer whose
    [idCurrentJob] refers to the job, with its position. *)
Definition assigned_printer (s : Store) (jid : Z) : option (nat * Printer.t) :=
  list_find (λ p, Printer.idCurrentJob p = Some jid) (printers s).

Definition alter_job (f : Job.t → Job.t) (jid : Z) (s : Store) : Store :=
  set_jobs (alter f jid (jobs s)) s.

(** [setattr(job, key, value)].  Assigning [None] to the relationship
    [assigned_printer] clears the foreign key of the printer it pointed to. *)
Definition setattr (jid : Z) (kw : Kwarg) (s : Store) : Store :=
  match kw with
  | Kw_priority_i v => alter_job (Job.set_priority_i v) jid s
  | Kw_idState v => alter_job (Job.set_idState v) jid s
  | Kw_canBePrinted v => alter_job (Job.set_canBePrinted v) jid s
  | Kw_retries v => alter_job (Job.set_retries v) jid s
  | Kw_progress v => alter_job (Job.set_progress v) jid s
  | Kw_startedAt v => alter_job (Job.set_startedAt v) jid s
  | Kw_finishedAt v => alter_job (Job.set_finishedAt v) jid s
  | Kw_estimatedTimeLeft v => alter_job (Job.set_estimatedTimeLeft v) jid s
  | Kw_interrupted v => alter_job (Job.set_interrupted v) jid s
  | Kw_succeed v => alter_job (Job.set_succeed (Some v)) jid s
  | Kw_assigned_printer_None =>
      match assigned_printer s jid with
      | Some (pos, printer) =>
          set_printers (<[pos := Printer.set_idCurrentJob None printer]> (printers s)) s
      | None => s
      end
  | Kw_other _ => s
  end.

(** [update_job(job, **kwargs)]: the keys are visited in the order they are
    written in the call; an unknown key raises after the earlier keys have
    been assigned.  The commit at the end does not change the store. *)
Fixpoint update_job (jid : Z) (kwargs : list Kwarg) : M unit :=
  match kwargs with
  | [] => ret tt
  | Kw_other key :: _ => raise (InvalidParameter ("Invalid '" +:+ key +:+ "' parameter"))
  | kw :: rest => let* _ := modify (setattr jid kw) in update_job jid rest
  end.

(** ** Priorities in the queue *)

(** The priorities of [Job.query.filter(Job.priority_i.isnot(None))]. *)
Definition priorities (s : Store) : list Z :=
  omap Job.priority_i (map_to_list (jobs s)).*2.

(** [priority_i] of the first row when ordered by descending priority. *)
Definition lowest_priority_job (s : Store) : option Z :=
  match priorities s with
  | [] => None
  | p :: ps => Some (foldr Z.max p ps)
  end.

(** [priority_i] of the first row when ordered by ascending priority. *)
Definition highest_priority_job (s : Store) : option Z :=
  match priorities s with
  | [] => None
  | p :: ps => Some (foldr Z.min p ps)
  end.

(** [execute_update(query, {Job.priority_i: Job.priority_i + delta})] for a
    query that keeps the rows whose priority is set and satisfies [keep]. *)
Definition shift_job (keep : Z → bool) (delta : Z) (job : Job.t) : Job.t :=
  match Job.priority_i job with
  | Some p => if keep p then Job.set_priority_i (Some (p + delta)) job else job
  | None => job
  end.

Definition execute_update_priority_i (keep : Z → bool) (delta : Z) : M unit :=
  modify (λ s, set_jobs (shift_job keep delta <$> jobs s) s).

(** [execute_update(JobExtruder.query.filter_by(idJob=job.id), ...)] with
    both used columns set to [None]. *)
Definition reset_used (jid : Z) (r : JobExtruder.t) : JobExtruder.t :=
  if decide (JobExtruder.idJob r = jid) then JobExtruder.set_used None None r else r.

Definition execute_update_reset_used (jid : Z) : M unit :=
  modify (λ s, set_job_extruders (reset_used jid <$> job_extruders s) s).

(** ** Transitions of a job *)

Definition next_priority_i (last : option Z) (step : Z) : Z :=
  match last with
  | None => 1
  | Some p => p + step
  end.

(** [insert_job(name, file, user)].  The new row gets the next free key. *)
Definition next_job_id (s : Store) : Z :=
  Z.succ (foldr Z.max 0 (map_to_list (jobs s)).*1).

(** Modelled from the spec: the column defaults of the jobs table are
    declared in [models/jobs.py], which is not part of the sources; a job is
    created in state Created with no priority, and the remaining columns
    start unset (zero, false or null). *)
Definition new_job (name : string) (idFile idUser : Z) : Job.t :=
  Job.mk name Created idFile idUser None false 0 0 None None None false None.

Definition insert_job (name : string) (idFile idUser : Z) : M Z :=
  if decide (name = "") then
    raise (InvalidParameter "The 'name' parameter can't be an empty string")
  else
    let* jid := gets next_job_id in
    let* _ := modify (λ s, set_jobs (<[jid := new_job name idFile idUser]> (jobs s)) s) in
    ret jid.

(** [enqueue_created_job(job)]. *)
Definition enqueue_created_job (jid : Z) : M unit :=
  let* job := get_job jid in
  if decide (Job.idState job ≠ Created) then
    raise (InvalidParameter
             "The job to enqueue needs to be in the initial state ('Created')")
  else
    let* can_be_printed := check_can_be_printed_job jid in
    let* lowest := gets lowest_priority_job in
    let job_priority_i := next_priority_i lowest 1 in
    update_job jid [Kw_priority_i (Some job_priority_i); Kw_idState Waiting;
                    Kw_canBePrinted can_be_printed; Kw_retries 0; Kw_progress 0].

(** [set_printing_job(job)]; [now] is the reading of [datetime.now()]. *)
Definition set_printing_job (jid : Z) (now : Z) : M unit :=
  let* job := get_job jid in
  if negb (Job.canBePrinted job) || bool_decide (Job.idState job ≠ Waiting) then
    raise (InvalidParameter "This job can't be printed with any printer")
  else
    let* printer := gets (λ s, assigned_printer s jid) in
    match printer with
    | None =>
        raise (InvalidParameter
          "The job needs to have an assigned printer to set it to the 'Printing' state")
    | Some _ =>
        let* file := gets (λ s, files s !! Job.idFile job) in
        match file with
        | None => raise AttributeError
        | Some f =>
            update_job jid [Kw_idState Printing; Kw_priority_i None; Kw_startedAt (Some now);
                            Kw_estimatedTimeLeft (File.estimatedPrintingTime f);
                            Kw_interrupted false]
        end
    end.

(** The relationship [job.extruders_data], as positions in the table. *)
Definition extruders_data (s : Store) (jid : Z) : list nat :=
  filter (λ pos, JobExtruder.idJob <$> job_extruders s !! pos = Some jid)
         (seq 0 (length (job_extruders s))).

(** [PrinterExtruder.query.filter_by(idPrinter=...).filter_by(index=...)],
    first row. *)
Definition printer_extruder_at (s : Store) (idPrinter index : Z) : option PrinterExtruder.t :=
  snd <$> list_find (λ e, PrinterExtruder.idPrinter e = idPrinter ∧
                          PrinterExtruder.index e = index) (printer_extruders s).

(** The loop of [set_finished_job] over the job's extruder rows.  Reading
    [.type.id] or [.material.id] through a missing row or a null foreign key
    is an [AttributeError]. *)
Fixpoint set_used_loop (idPrinter : Z) (rows : list nat) : M unit :=
  match rows with
  | [] => ret tt
  | pos :: rest =>
      λ s,
        match job_extruders s !! pos with
        | None => Detached
        | Some job_extruder =>
            match printer_extruder_at s idPrinter (JobExtruder.extruderIndex job_extruder) with
            | Some (PrinterExtruder.mk _ (Some ty) (Some mat) _) =>
                set_used_loop idPrinter rest
                  (set_job_extruders
                     (<[pos := JobExtruder.set_used (Some ty) (Some mat) job_extruder]>
                        (job_extruders s)) s)
            | _ => Raised AttributeError s
            end
        end
  end.

(** [set_finished_job(job)]. *)
Definition set_finished_job (jid : Z) (now : Z) : M unit :=
  let* job := get_job jid in
  if decide (Job.idState job ≠ Printing) then
    raise (InvalidParameter
             "The job needs to be in 'Printing' state to change to 'Finished' state")
  else
    let* _ := update_job jid [Kw_idState Finished; Kw_finishedAt (Some now);
                              Kw_progress 100; Kw_estimatedTimeLeft (Some 0)] in
    let* printer := gets (λ s, assigned_printer s jid) in
    match printer with
    | None => raise AttributeError
    | Some (_, printer) =>
        let* rows := gets (λ s, extruders_data s jid) in
        set_used_loop (Printer.id printer) rows
    end.

(** [set_done_job(job, succeed)]. *)
Definition set_done_job (jid : Z) (succeed : bool) : M unit :=
  let* job := get_job jid in
  if decide (Job.idState job ≠ Finished) then
    raise (InvalidParameter
             "The job needs to be in 'Finished' state to change to 'Done' state")
  else
    update_job jid [Kw_idState Done; Kw_succeed succeed; Kw_assigned_printer_None].

(** [reorder_job_in_queue(job, after)].  The value is the job when it is
    moved to the head and [None] otherwise. *)
Definition reorder_job_in_queue (jid : Z) (after : option Z) : M (option Z) :=
  let* job := get_job jid in
  if decide (Job.idState job ≠ Waiting) then
    raise (InvalidParameter "The job to reorder needs to be in the 'Waiting' state")
  else
    match after with
    | None =>
        let* highest := gets highest_priority_job in
        match highest with
        | None => raise AttributeError
        | Some p =>
            let* _ := update_job jid [Kw_priority_i (Some (p - 1))] in
            ret (Some jid)
        end
    | Some aid =>
        let* after_job := get_job aid in
        if decide (Job.idState after_job ≠ Waiting) then
          raise (InvalidParameter
                   "The new previous job in queue needs to be in the 'Waiting' state")
        else if decide (jid = aid) then
          raise (InvalidParameter
                   "The job to reorder needs to different from the after job")
        else
          match Job.priority_i job, Job.priority_i after_job with
          | None, _ | _, None => raise TypeError
          | Some original_priority_i, Some after_priority_i =>
              if decide (after_priority_i < original_priority_i) then
                let* _ := execute_update_priority_i
                            (λ p, bool_decide (p > after_priority_i) &&
                                  bool_decide (p < original_priority_i)) 1 in
                let* _ := modify (alter_job (Job.set_priority_i (Some (after_priority_i + 1)))
                                            jid) in
                ret None
              else if decide (after_priority_i > original_priority_i) then
                let* _ := execute_update_priority_i
                            (λ p, bool_decide (p <= after_priority_i) &&
                                  bool_decide (p > original_priority_i)) (-1) in
                let* _ := modify (alter_job (Job.set_priority_i (Some after_priority_i)) jid) in
                ret None
              else ret None
          end
    end.

(** [enqueue_printing_or_finished_job(job, max_priority)]. *)
Definition enqueue_printing_or_finished_job (jid : Z) (max_priority : bool) : M unit :=
  let* job := get_job jid in
  if decide (Job.idState job ≠ Printing ∧ Job.idState job ≠ Finished) then
    raise (InvalidParameter
             "The job to enqueue needs to be in the state 'Printing' or 'Finished'")
  else
    let* can_be_printed := check_can_be_printed_job jid in
    let* job_priority_i :=
      gets (λ s, if max_priority
                 then next_priority_i (highest_priority_job s) (-1)
                 else next_priority_i (lowest_priority_job s) 1) in
    let* _ := update_job jid
                [Kw_priority_i (Some job_priority_i); Kw_idState Waiting;
                 Kw_canBePrinted can_be_printed; Kw_retries (Job.retries job + 1);
                 Kw_startedAt None; Kw_finishedAt None; Kw_assigned_printer_None;
                 Kw_progress 0; Kw_estimatedTimeLeft None] in
    execute_update_reset_used jid.

(** [assign_job_to_printer(printer, job)]; the printer is referred to by
    its position in the table. *)
Definition assign_job_to_printer (pos : nat) (jid : Z) : M nat :=
  let* printer := get_printer pos in
  let* job := get_job jid in
  if decide (Job.idState job ≠ Waiting) then
    raise (InvalidParameter "The job to assign needs to be in the state 'Waiting''")
  else if negb (Job.canBePrinted job) then
    raise (InvalidParameter "Can't assign a job to a printer that can't be printed")
  else if decide (Printer.idCurrentJob printer ≠ None) then
    raise (InvalidParameter
             "Can't assign a job to a printer that has already an assigned job")
  else
    let* _ := modify (λ s, set_printers
                (<[pos := Printer.set_idCurrentJob (Some jid) printer]> (printers s)) s) in
    ret pos.

(** [delete_job(job)].  The rows that depend on the job go with it as the
    missing model declarations say; here only the job row is removed. *)
Definition delete_job (jid : Z) : M unit :=
  modify (λ s, set_jobs (delete jid (jobs s)) s).

(** [reprint_done_job(job)]. *)
Definition reprint_done_job (jid : Z) : M unit :=
  let* job := get_job jid in
  if decide (Job.idState job ≠ Done) then
    raise (InvalidParameter "The job to enqueue needs to be in the state 'Done'")
  else
    let* can_be_printed := check_can_be_printed_job jid in
    let* lowest := gets lowest_priority_job in
    let job_priority_i := next_priority_i lowest 1 in
    let* _ := update_job jid
                [Kw_priority_i (Some job_priority_i); Kw_idState Waiting;
                 Kw_canBePrinted can_be_printed; Kw_retries 0;
                 Kw_startedAt None; Kw_finishedAt None; Kw_assigned_printer_None;
                 Kw_progress 0; Kw_estimatedTimeLeft None] in
    execute_update_reset_used jid.

(** [get_jobs(order_by_priority=True, idState=...)]: the rows in the given
    state by ascending priority (a null priority sorts first). *)
Definition priority_le (a b : Z * Job.t) : Prop :=
  match Job.priority_i a.2, Job.priority_i b.2 with
  | None, _ => True
  | Some _, None => False
  | Some p, Some q => p ≤ q
  end.

#[global] Instance priority_le_dec a b : Decision (priority_le a b).
Proof.
  unfold priority_le.
  destruct (Job.priority_i a.2), (Job.priority_i b.2); apply _.
Defined.

Definition get_jobs_by_priority (s : Store) (st : JobState) : list (Z * Job.t) :=
  merge_sort priority_le
    (filter (λ kj, Job.idState kj.2 = st) (map_to_list (jobs s))).

(** The queue as pairs of job id and priority, head first. *)
Definition queue (s : Store) : list (Z * option Z) :=
  (λ kj, (kj.1, Job.priority_i kj.2)) <$> get_jobs_by_priority s Waiting.

(** ** The exposed operations *)

Inductive Op :=
  | EnqueueJob (jid : Z)
  | StartPrinting (jid : Z) (now : Z)
  | FinishJob (jid : Z) (now : Z)
  | MarkJobDone (jid : Z) (succeeded : bool)
  | RequeueJob (jid : Z) (toHead : bool)
  | ReprintJob (jid : Z)
  | ReorderJob (jid : Z) (after : option Z)
  | AssignJobToPrinter (pos : nat) (jid : Z).

Definition void {A} (m : M A) : M unit := let* _ := m in ret tt.

Definition call (op : Op) : M unit :=
  match op with
  | EnqueueJob jid => enqueue_created_job jid
  | StartPrinting jid now => set_printing_job jid now
  | FinishJob jid now => set_finished_job jid now
  | MarkJobDone jid succeeded => set_done_job jid succeeded
  | RequeueJob jid toHead => enqueue_printing_or_finished_job jid toHead
  | ReprintJob jid => reprint_done_job jid
  | ReorderJob jid after => void (reorder_job_in_queue jid after)
  | AssignJobToPrinter pos jid => void (assign_job_to_printer pos jid)
  end.

(** The job an operation is called on. *)
Definition op_job (op : Op) : Z :=
  match op with
  | EnqueueJob jid | StartPrinting jid _ | FinishJob jid _ | MarkJobDone jid _
  | RequeueJob jid _ | ReprintJob jid | ReorderJob jid _ | AssignJobToPrinter _ jid => jid
  end.

(** The printer object handed to an operation, if any, is a live row. *)
Definition op_printer_live (op : Op) (s : Store) : Prop :=
  match op with
  | AssignJobToPrinter pos _ => is_Some (printers s !! pos)
  | _ => True
  end.

(** The states of the job in which each operation starts with its first
    check passed. *)
Definition state_precondition (op : Op) (st : JobState) : bool :=
  match op with
  | EnqueueJob _ => bool_decide (st = Created)
  | StartPrinting _ _ => bool_decide (st = Waiting)
  | FinishJob _ _ => bool_decide (st = Printing)
  | MarkJobDone _ _ => bool_decide (st = Finished)
  | RequeueJob _ _ => bool_decide (st = Printing ∨ st = Finished)
  | ReprintJob _ => bool_decide (st = Done)
  | ReorderJob _ _ => bool_decide (st = Waiting)
  | AssignJobToPrinter _ _ => bool_decide (st = Waiting)
  end.

(** ** Invariants of the jobs table *)

(** No two Waiting jobs hold the same priority. *)
Definition unique_waiting (m : gmap Z Job.t) : Prop :=
  ∀ k1 k2 j1 j2 p,
    m !! k1 = Some j1 → m !! k2 = Some j2 →
    Job.idState j1 = Waiting → Job.idState j2 = Waiting →
    Job.priority_i j1 = Some p → Job.priority_i j2 = Some p →
    k1 = k2.

(** A job has a priority exactly when it is Waiting. *)
Definition coupled (m : gmap Z Job.t) : Prop :=
  map_Forall (λ _ j, Job.priority_i j ≠ None ↔ Job.idState j = Waiting) m.

#[global] Instance coupled_dec m : Decision (coupled m).
Proof. unfold coupled. apply _. Defined.

(** States reachable from an empty jobs table: jobs are created and
    deleted, the exposed operations are called (with any outcome), and other
    actors change the rest of the store. *)
Inductive reachable : Store → Prop :=
  | reach_init s : jobs s = ∅ → reachable s
  | reach_insert s name idFile idUser :
      reachable s → reachable (store_after s (insert_job name idFile idUser s))
  | reach_call s op :
      reachable s → reachable (store_after s (call op s))
  | reach_delete s jid :
      reachable s → reachable (store_after s (delete_job jid s))
  | reach_env s s' :
      reachable s → jobs s' = jobs s → reachable s'.

(** ** Effects on the jobs table *)

(** What a keyword argument does to the columns of the job row. *)
Definition kw_job (kw : Kwarg) : Job.t → Job.t :=
  match kw with
  | Kw_priority_i v => Job.set_priority_i v
  | Kw_idState v => Job.set_idState v
  | Kw_canBePrinted v => Job.set_canBePrinted v
  | Kw_retries v => Job.set_retries v
  | Kw_progress v => Job.set_progress v
  | Kw_startedAt v => Job.set_startedAt v
  | Kw_finishedAt v => Job.set_finishedAt v
  | Kw_estimatedTimeLeft v => Job.set_estimatedTimeLeft v
  | Kw_interrupted v => Job.set_interrupted v
  | Kw_succeed v => Job.set_succeed (Some v)
  | Kw_assigned_printer_None | Kw_other _ => id
  end.

(** Some job of the table holds priority [p]. *)
Definition has_priority (m : gmap Z Job.t) (p : Z) : Prop :=
  ∃ k j, m !! k = Some j ∧ Job.priority_i j = Some p.

(** The ways a call changes the jobs table: not at all; one row is
    deleted; one row leaves the queue or is created outside it; one row outside the queue stays
    outside; one row takes a priority nobody holds; or a row of the queue is
    moved behind another one by shifting the rows in between. *)
Inductive jobs_effect (m : gmap Z Job.t) : gmap Z Job.t → Prop :=
  | eff_none : jobs_effect m m
  | eff_delete jid : jobs_effect m (delete jid m)
  | eff_leave jid job' :
      Job.idState job' ≠ Waiting → Job.priority_i job' = None →
      jobs_effect m (<[jid := job']> m)
  | eff_keep jid job job' :
      m !! jid = Some job →
      Job.idState job ≠ Waiting → Job.idState job' ≠ Waiting →
      Job.priority_i job' = Job.priority_i job →
      jobs_effect m (<[jid := job']> m)
  | eff_enter jid job' q :
      Job.idState job' = Waiting → Job.priority_i job' = Some q →
      ¬ has_priority m q →
      jobs_effect m (<[jid := job']> m)
  | eff_shift_up jid job orig target :
      m !! jid = Some job → Job.idState job = Waiting → Job.priority_i job = Some orig →
      target < orig →
      jobs_effect m
        (<[jid := Job.set_priority_i (Some (target + 1)) job]>
           (shift_job (λ p, bool_decide (p > target) && bool_decide (p < orig)) 1 <$> m))
  | eff_shift_down jid job orig target :
      m !! jid = Some job → Job.idState job = Waiting → Job.priority_i job = Some orig →
      target > orig →
      jobs_effect m
        (<[jid := Job.set_priority_i (Some target) job]>
           (shift_job (λ p, bool_decide (p <= target) && bool_decide (p > orig)) (-1) <$> m)).

(** The tables the job manager only reads. *)
Definition static_tables (s : Store) :=
  (files s, printer_states s, printer_extruders s,
   job_allowed_materials s, job_allowed_extruders s).

(** The used columns of an extruder row of a finished job as the
    specification words them: the extruder type and the material the
    printer holds at the row's extruder index. *)
Definition copy_used (s : Store) (idPrinter : Z) (row : JobExtruder.t) : JobExtruder.t :=
  let printer_extruder := printer_extruder_at s idPrinter (JobExtruder.extruderIndex row) in
  JobExtruder.set_used (printer_extruder ≫= PrinterExtruder.idExtruderType)
                       (printer_extruder ≫= PrinterExtruder.idMaterial) row.

(** The reordering is called behind a job that is not Waiting. *)
Definition after_not_waiting (op : Op) (s : Store) : Prop :=
  match op with
  | ReorderJob _ (Some aid) =>
      ∃ after_job, jobs s !! aid = Some after_job ∧ Job.idState after_job ≠ Waiting
  | _ => False
  end.

(** ** Example stores *)

Definition PLA : Z := 1.
Definition ABS : Z := 2.

(** Printer state 1 is operational, printer state 2 is not. *)
Definition fleet_states : gmap Z bool := {[ 1 := true; 2 := false ]}.

(** Two operational printers with one extruder each: the first holds ABS,
    the second PLA.  Job 1 accepts only PLA at extruder index 0; [current]
    is the current job of the second printer. *)
Definition two_printers_with (job : Job.t) (current : option Z) : Store :=
  mkStore {[ 1 := job ]} {[ 1 := File.mk (Some 3600) ]} fleet_states
    [Printer.mk 1 1 None; Printer.mk 2 1 current]
    [PrinterExtruder.mk 1 (Some 1) (Some ABS) 0; PrinterExtruder.mk 2 (Some 1) (Some PLA) 0]
    [JobAllowedMaterial.mk 1 PLA 0] [] [JobExtruder.mk 1 0 None None].

(** Job 1 has just been created. *)
Definition two_printers : Store := two_printers_with (new_job "part" 1 1) None.

(** Job 1 is being printed on the second printer. *)
Definition printing_job : Job.t :=
  Job.mk "part" Printing 1 1 None true 0 0 (Some 10) None (Some 3600) false None.

Definition two_printers_printing : Store := two_printers_with printing_job (Some 1).

(** Job 1 has been printed and marked done. *)
Definition done_job : Job.t :=
  Job.mk "part" Done 1 1 None true 3 100 (Some 10) (Some 20) (Some 0) false (Some true).

Definition two_printers_done : Store := two_printers_with done_job None.

(** A run of exposed operations, keeping the store each one leaves. *)
Definition run (ops : list Op) (s : Store) : Store :=
  foldl (λ s op, store_after s (call op s)) s ops.

(** One operational printer holding PLA, and no job yet. *)
Definition empty_fleet : Store :=
  mkStore ∅ {[ 1 := File.mk (Some 3600) ]} fleet_states
    [Printer.mk 2 1 None]
    [PrinterExtruder.mk 2 (Some 1) (Some PLA) 0]
    [JobAllowedMaterial.mk 1 PLA 0] [] [JobExtruder.mk 1 0 None None].

(** The same fleet after job 1 has been created and enqueued. *)
Definition one_waiting : Store :=
  store_after empty_fleet
    (call (EnqueueJob 1)
       (store_after empty_fleet (insert_job "part" 1 1 empty_fleet))).

(** One operational printer whose extruder holds no material, a job without
    constraints that uses extruder 0; the job is created, enqueued, assigned
    to the printer and started. *)
Definition unloaded_fleet : Store :=
  mkStore ∅ {[ 1 := File.mk (Some 3600) ]} fleet_states
    [Printer.mk 2 1 None]
    [PrinterExtruder.mk 2 (Some 1) None 0]
    [] [] [JobExtruder.mk 1 0 None None].

Definition unloaded_printing : Store :=
  run [EnqueueJob 1; AssignJobToPrinter 0 1; StartPrinting 1 10]
      (store_after unloaded_fleet (insert_job "part" 1 1 unloaded_fleet)).

(** The loaded fleet with job 1 being printed. *)
Definition one_printing : Store :=
  run [AssignJobToPrinter 0 1; StartPrinting 1 10] one_waiting.

(** A Printing job that no printer holds as its current job. *)
Definition printing_unassigned : Store :=
  mkStore {[ 1 := printing_job ]} {[ 1 := File.mk (Some 3600) ]} fleet_states
    [Printer.mk 2 1 None]
    [PrinterExtruder.mk 2 (Some 1) (Some PLA) 0]
    [] [] [JobExtruder.mk 1 0 None None].

(** Five Waiting jobs with priorities 1 to 5, job [i] at priority [i]. *)
Definition waiting_job (p : Z) : Job.t :=
  Job.mk "part" Waiting 1 1 (Some p) false 0 0 None None None false None.

Definition dense_queue : Store :=
  mkStore {[ 1 := waiting_job 1; 2 := waiting_job 2; 3 := waiting_job 3;
             4 := waiting_job 4; 5 := waiting_job 5 ]}
    {[ 1 := File.mk (Some 3600) ]} fleet_states [] [] [] [] [].

(** ** Queries on the constraint tables *)

(** The optional [extruder_index] argument of the constraint queries:
    [None] keeps the rows of every index. *)
Definition index_matches (extruder_index : option Z) (i : Z) : Prop :=
  match extruder_index with
  | Some idx => i = idx
  | None => True
  end.

#[global] Instance index_matches_dec o i : Decision (index_matches o i).
Proof. destruct o; simpl; apply _. Defined.

(** [get_job_allowed_materials(job, extruder_index=None)] with its optional
    argument. *)
Definition get_job_allowed_materials_of (s : Store) (jid : Z) (extruder_index : option Z)
    : list Z :=
  JobAllowedMaterial.idMaterial <$>
    filter (λ r, JobAllowedMaterial.idJob r = jid ∧
                 index_matches extruder_index (JobAllowedMaterial.extruderIndex r))
           (job_allowed_materials s).

(** [get_jobs_by_material(material, extruder_index=None)]: the jobs of the
    rows that allow the material, one entry per row. *)
Definition get_jobs_by_material (s : Store) (idMaterial : Z) (extruder_index : option Z)
    : list Z :=
  JobAllowedMaterial.idJob <$>
    filter (λ r, JobAllowedMaterial.idMaterial r = idMaterial ∧
                 index_matches extruder_index (JobAllowedMaterial.extruderIndex r))
           (job_allowed_materials s).

(** [get_job_allowed_extruder_types(job, extruder_index=None)]. *)
Definition get_job_allowed_extruder_types_of (s : Store) (jid : Z)
    (extruder_index : option Z) : list Z :=
  JobAllowedExtruder.idExtruderType <$>
    filter (λ r, JobAllowedExtruder.idJob r = jid ∧
                 index_matches extruder_index (JobAllowedExtruder.extruderIndex r))
           (job_allowed_extruders s).

(** [get_jobs_by_extruder_type(extruder_type, extruder_index=None)]. *)
Definition get_jobs_by_extruder_type (s : Store) (idExtruderType : Z)
    (extruder_index : option Z) : list Z :=
  JobAllowedExtruder.idJob <$>
    filter (λ r, JobAllowedExtruder.idExtruderType r = idExtruderType ∧
                 index_matches extruder_index (JobAllowedExtruder.extruderIndex r))
           (job_allowed_extruders s).

(** [get_job_extruders(job, extruder_index=None)]. *)
Definition get_job_extruders (s : Store) (jid : Z) (extruder_index : option Z)
    : list JobExtruder.t :=
  filter (λ r, JobExtruder.idJob r = jid ∧
               index_matches extruder_index (JobExtruder.extruderIndex r))
         (job_extruders s).

Definition set_job_allowed_materials (v : list JobAllowedMaterial.t) (s : Store) : Store :=
  mkStore (jobs s) (files s) (printer_states s) (printers s) (printer_extruders s)
          v (job_allowed_extruders s) (job_extruders s).

(** An element of the list handed to [insert_job_allowed_materials]: a
    material object with an extruder index, or a pair whose first component
    is not a [PrinterMaterial]. *)
Inductive AllowedMaterialArg :=
  | IsMaterial (idMaterial : Z) (extruder_index : Z)
  | NotMaterial (extruder_index : Z).

(** The loop of [insert_job_allowed_materials(job, allowed_materials)].  A
    new row goes to the end of the table; [created] collects the rows made
    so far.  An element that is not a material raises after the rows of the
    elements before it have been added. *)
Fixpoint insert_job_allowed_materials_loop (jid : Z)
    (allowed_materials : list AllowedMaterialArg)
    (created : list JobAllowedMaterial.t) : M (list JobAllowedMaterial.t) :=
  match allowed_materials with
  | [] => ret created
  | NotMaterial _ :: _ =>
      raise (InvalidParameter
        "The elements of the 'allowed_materials' parameter needs to be PrinterMaterial objects")
  | IsMaterial material extruder_index :: rest =>
      let job_allowed_material := JobAllowedMaterial.mk jid material extruder_index in
      let* _ := modify (λ s, set_job_allowed_materials
                               (job_allowed_materials s ++ [job_allowed_material]) s) in
      insert_job_allowed_materials_loop jid rest (created ++ [job_allowed_material])
  end.

Definition insert_job_allowed_materials (jid : Z) (allowed_materials : list AllowedMaterialArg)
    : M (list JobAllowedMaterial.t) :=
  insert_job_allowed_materials_loop jid allowed_materials [].

(** The rows a list of arguments stands for, up to the first element that
    is not a material. *)
Fixpoint material_rows (jid : Z) (allowed_materials : list AllowedMaterialArg)
    : list JobAllowedMaterial.t :=
  match allowed_materials with
  | IsMaterial material extruder_index :: rest =>
      JobAllowedMaterial.mk jid material extruder_index :: material_rows jid rest
  | _ => []
  end.

(** ** The queue seen by the dispatcher *)

(** The rows of [Job.query.filter_by(idState=Waiting).filter_by(canBePrinted=True)]. *)
Definition printable_waiting (s : Store) : list (Z * Job.t) :=
  filter (λ kj, Job.idState kj.2 = Waiting ∧ Job.canBePrinted kj.2 = true)
         (map_to_list (jobs s)).

(** [get_first_job_in_queue()]: the first of these rows by ascending
    priority, or [None]. *)
Definition get_first_job_in_queue (s : Store) : option (Z * Job.t) :=
  head (merge_sort priority_le (printable_waiting s)).

(** [count_jobs_in_queue(only_can_be_printed)]. *)
Definition count_jobs_in_queue (s : Store) (only_can_be_printed : bool) : nat :=
  if only_can_be_printed
  then length (printable_waiting s)
  else length (filter (λ kj, Job.idState kj.2 = Waiting) (map_to_list (jobs s))).

(** ** Refreshing the printable flag *)

(** [get_jobs(idState=...)]: the keys of the rows in the given state, by
    ascending id. *)
Definition id_le (a b : Z * Job.t) : Prop := a.1 ≤ b.1.

#[global] Instance id_le_dec a b : Decision (id_le a b).
Proof. unfold id_le. apply _. Defined.

Definition get_jobs_idState (s : Store) (st : JobState) : list Z :=
  (merge_sort id_le (filter (λ kj, Job.idState kj.2 = st) (map_to_list (jobs s)))).*1.

(** A [for job in jobs:] loop over job objects. *)
Fixpoint for_each_job (body : Z → M unit) (ids : list Z) : M unit :=
  match ids with
  | [] => ret tt
  | jid :: rest => let* _ := body jid in for_each_job body rest
  end.

(** [init_jobs_can_be_printed()]. *)
Definition init_jobs_can_be_printed : M unit :=
  let* waiting := gets (λ s, get_jobs_idState s Waiting) in
  for_each_job (λ jid, update_job jid [Kw_canBePrinted false]) waiting.

(** [update_can_be_printed_jobs()]. *)
Definition update_can_be_printed_jobs : M unit :=
  let* waiting := gets (λ s, get_jobs_idState s Waiting) in
  for_each_job (λ jid, let* can_be_printed := check_can_be_printed_job jid in
                       update_job jid [Kw_canBePrinted can_be_printed]) waiting.

(** ** Printers going offline *)

Definition set_printer_idState (v : Z) (p : Printer.t) : Printer.t :=
  Printer.mk (Printer.id p) v (Printer.idCurrentJob p).

(** [update_printer(printer, idState=...)] of [manager/printers.py]. *)
Definition update_printer_idState (pos : nat) (idState : Z) : M unit :=
  let* printer := get_printer pos in
  modify (λ s, set_printers (<[pos := set_printer_idState idState printer]> (printers s)) s).

(** A [for printer in printers:] loop over printer objects. *)
Fixpoint for_each_printer (body : nat → M unit) (positions : list nat) : M unit :=
  match positions with
  | [] => ret tt
  | pos :: rest => let* _ := body pos in for_each_printer body rest
  end.

(** [init_printers_state()]; [offline] is [printer_state_ids["Offline"]]. *)
Definition init_printers_state (offline : Z) : M unit :=
  let* positions := gets (λ s, seq 0 (length (printers s))) in
  for_each_printer (λ pos, update_printer_idState pos offline) positions.

(** Some working printer other than the last one is rejected for the job. *)
Definition rejected_before_last (s : Store) (jid : Z) : bool :=
  existsb (λ p, negb (survives s jid p))
          (take (length (working_printers s) - 1) (working_printers s)).

(** The keyword names an attribute of [Job]. *)
Definition known_key (kw : Kwarg) : Prop :=
  match kw with
  | Kw_other _ => False
  | _ => True
  end.

(** At most one printer holds the job as its current job. *)
Definition held_once (s : Store) (jid : Z) : Prop :=
  ∀ pos1 pos2 p1 p2,
    printers s !! pos1 = Some p1 → printers s !! pos2 = Some p2 →
    Printer.idCurrentJob p1 = Some jid → Printer.idCurrentJob p2 = Some jid →
    pos1 = pos2.

(** The loaded fleet with job 1 assigned to the printer, and with job 1
    printed to the end. *)
Definition one_assigned : Store := run [AssignJobToPrinter 0 1] one_waiting.

Definition one_finished : Store := run [FinishJob 1 20] one_printing.

(** The loaded fleet with a second job created and enqueued behind job 1:
    both jobs are Waiting, job 1 at priority 1 and job 2 at priority 2. *)
Definition two_waiting : Store :=
  run [EnqueueJob 2] (store_after one_waiting (insert_job "bracket" 1 1 one_waiting)).

(** * Properties *)

(** ** The monad *)

Lemma get_job_Some jid s job : jobs s !! jid = Some job → get_job jid s = Ok job s.
Proof. unfold get_job. by intros ->. Qed.

(** ** Capability matcher *)

Section matcher.
Context (s : Store) (jid : Z).

Let rejected (p : Printer.t) : bool := extruders_loop s jid (extruders s p).

Lemma extruder_mismatch_passes e :
  extruder_mismatch s jid e = negb (passes_index s jid e).
Proof.
  unfold extruder_mismatch, passes_index.
  destruct (truthy _), (is_in _ _), (truthy _), (is_in _ _); reflexivity.
Qed.

Lemma extruders_loop_forallb l :
  extruders_loop s jid l = negb (forallb (passes_index s jid) l).
Proof.
  induction l as [|e l IH]; simpl; [done|].
  rewrite IH, extruder_mismatch_passes. by destruct (passes_index s jid e).
Qed.

Lemma forallb_Permutation {A} (f : A → bool) l1 l2 :
  l1 ≡ₚ l2 → forallb f l1 = forallb f l2.
Proof.
  induction 1 as [|x l1 l2 _ IH|x y l|l1 l2 l3 _ IH1 _ IH2]; simpl.
  - done.
  - by rewrite IH.
  - by destruct (f x), (f y).
  - by rewrite IH1.
Qed.

(** The inner loop deletes a printer exactly when the printer does not
    pass at every one of its extruder indexes. *)
Lemma rejected_survives p : rejected p = negb (survives s jid p).
Proof.
  unfold rejected, survives, extruders.
  rewrite extruders_loop_forallb. f_equal.
  apply forallb_Permutation, merge_sort_Permutation.
Qed.

(** Once the list is shorter than the range, the loop runs into the
    [IndexError]. *)
Lemma printers_loop_short k : ∀ i l,
  (0 < k)%nat → (length l < i + k)%nat →
  printers_loop s jid (seq i k) l = None.
Proof.
  induction k as [|k IH]; intros i l Hk Hlen; [lia|]. simpl.
  destruct (l !! i) as [p|] eqn:Hp; [|done].
  apply lookup_lt_Some in Hp.
  destruct (extruders_loop s jid (extruders s p)).
  - apply IH; [lia|]. rewrite length_delete by (apply lookup_lt_is_Some; lia). lia.
  - apply IH; lia.
Qed.

(** When only the last working printer can be rejected, the loop returns
    the printers that were not rejected. *)
Lemma printers_loop_Some k : ∀ i l,
  length l = (i + k)%nat →
  (∀ j p, (i ≤ j)%nat → (S j < length l)%nat → l !! j = Some p → rejected p = false) →
  printers_loop s jid (seq i k) l =
    Some (take i l ++ filter (λ p, rejected p = false) (drop i l)).
Proof.
  induction k as [|k IH]; intros i l Hlen Hok; simpl.
  - rewrite drop_ge, take_ge by lia. by rewrite filter_nil, app_nil_r.
  - destruct (l !! i) as [p|] eqn:Hp;
      [|apply lookup_ge_None in Hp; lia].
    rewrite (drop_S _ _ _ Hp), filter_cons.
    fold (rejected p). destruct (rejected p) eqn:Hrej.
    + destruct k as [|k].
      * simpl. rewrite drop_ge, filter_nil, app_nil_r by lia.
        f_equal. rewrite delete_take_drop.
        rewrite (drop_ge l (S i)) by lia. by rewrite app_nil_r.
      * rewrite (Hok i p) in Hrej; [done|lia|lia|done].
    + simpl. rewrite IH; [|lia|intros; apply (Hok j); auto with lia].
      f_equal. rewrite (take_S_r _ _ _ Hp), <-app_assoc. done.
Qed.

(** Whatever the loop returns is the list of printers that were not
    rejected. *)
Lemma printers_loop_Some_inv k : ∀ i l r,
  length l = (i + k)%nat →
  printers_loop s jid (seq i k) l = Some r →
  r = take i l ++ filter (λ p, rejected p = false) (drop i l).
Proof.
  induction k as [|k IH]; intros i l r Hlen; simpl.
  - intros [= <-]. rewrite drop_ge, take_ge by lia. by rewrite filter_nil, app_nil_r.
  - destruct (l !! i) as [p|] eqn:Hp; [|done].
    rewrite (drop_S _ _ _ Hp), filter_cons.
    fold (rejected p). destruct (rejected p) eqn:Hrej; simpl.
    + destruct k as [|k].
      * simpl. intros [= <-]. rewrite drop_ge, filter_nil by lia.
        rewrite delete_take_drop. by rewrite (drop_ge l (S i)) by lia.
      * rewrite printers_loop_short; [done|lia|].
        rewrite length_delete by (apply lookup_lt_is_Some; lia). lia.
    + intros Hloop. apply IH in Hloop; [|lia]. subst r.
      by rewrite (take_S_r _ _ _ Hp), <-app_assoc.
Qed.

(** When a working printer other than the last one is rejected, the loop
    ends in the [IndexError]. *)
Lemma printers_loop_None k : ∀ i l j p,
  length l = (i + k)%nat →
  (i ≤ j)%nat → (S j < length l)%nat → l !! j = Some p → rejected p = true →
  printers_loop s jid (seq i k) l = None.
Proof.
  induction k as [|k IH]; intros i l j p Hlen Hij Hj Hp Hrej; [lia|]. simpl.
  destruct (l !! i) as [q|] eqn:Hq;
    [|apply lookup_ge_None in Hq; lia].
  fold (rejected q). destruct (rejected q) eqn:Hrejq.
  - apply printers_loop_short; [lia|].
    rewrite length_delete by (apply lookup_lt_is_Some; lia). lia.
  - assert (i ≠ j) by (intros ->; congruence).
    apply (IH (S i) l j p); auto with lia.
Qed.
End matcher.

(** The matcher reads the store and never writes it. *)
Lemma check_can_be_printed_job_printers_cases jid s :
  (∃ l, check_can_be_printed_job_printers jid s = Ok l s) ∨
  check_can_be_printed_job_printers jid s = Raised IndexError s.
Proof.
  unfold check_can_be_printed_job_printers.
  destruct (printers_loop _ _ _ _); eauto.
Qed.

Lemma check_can_be_printed_job_cases jid s :
  (∃ b, check_can_be_printed_job jid s = Ok b s) ∨
  check_can_be_printed_job jid s = Raised IndexError s.
Proof.
  unfold check_can_be_printed_job, bind, ret.
  destruct (check_can_be_printed_job_printers_cases jid s) as [[l ->]| ->]; eauto.
Qed.

Lemma isPrintable_printers_filter s jid :
  filter (λ p, extruders_loop s jid (extruders s p) = false) (working_printers s)
  = isPrintable_printers s jid.
Proof.
  unfold isPrintable_printers. apply list_filter_iff. intros p.
  rewrite rejected_survives. by destruct (survives s jid p).
Qed.

(** When no working printer except possibly the last one is rejected, the
    matcher returns the surviving printers of the specification. *)
Lemma check_can_be_printed_job_printers_Ok s jid :
  (∀ j p, (S j < length (working_printers s))%nat →
          working_printers s !! j = Some p → survives s jid p = true) →
  check_can_be_printed_job_printers jid s = Ok (isPrintable_printers s jid) s.
Proof.
  intros Hok. unfold check_can_be_printed_job_printers.
  rewrite (printers_loop_Some s jid _ 0); [|done|].
  - simpl. by rewrite isPrintable_printers_filter.
  - intros j p _ Hj Hp. rewrite rejected_survives, (Hok j p); done.
Qed.

(** When a working printer other than the last one is rejected, the
    matcher raises [IndexError]. *)
Lemma check_can_be_printed_job_printers_Raised s jid j p :
  (S j < length (working_printers s))%nat →
  working_printers s !! j = Some p → survives s jid p = false →
  check_can_be_printed_job_printers jid s = Raised IndexError s.
Proof.
  intros Hj Hp Hrej. unfold check_can_be_printed_job_printers.
  rewrite (printers_loop_None s jid _ 0 _ j p); auto with lia.
  by rewrite rejected_survives, Hrej.
Qed.

(** Whenever the matcher returns, its answer is the one of the
    specification. *)
Lemma check_can_be_printed_job_sound s jid b s' :
  check_can_be_printed_job jid s = Ok b s' → s' = s ∧ b = isPrintable s jid.
Proof.
  unfold check_can_be_printed_job, bind, ret, check_can_be_printed_job_printers.
  destruct (printers_loop _ _ _ _) as [l|] eqn:Hloop; [|done].
  intros [= <- <-]. split; [done|]. unfold isPrintable. f_equal.
  rewrite <-isPrintable_printers_filter.
  by apply (printers_loop_Some_inv s jid _ 0) in Hloop.
Qed.

(** ** Updating a job *)

Lemma setattr_jobs jid kw s : jobs (setattr jid kw s) = alter (kw_job kw) jid (jobs s).
Proof.
  destruct kw; simpl; try done.
  - destruct (assigned_printer s jid) as [[pos printer]|]; simpl; by rewrite alter_id.
  - by rewrite alter_id.
Qed.

Lemma setattr_job_extruders jid kw s : job_extruders (setattr jid kw s) = job_extruders s.
Proof. destruct kw; simpl; try done. by destruct (assigned_printer s jid) as [[??]|]. Qed.

Lemma setattr_static_tables jid kw s : static_tables (setattr jid kw s) = static_tables s.
Proof. destruct kw; simpl; try done. by destruct (assigned_printer s jid) as [[??]|]. Qed.

Lemma static_tables_set_job_extruders v s :
  static_tables (set_job_extruders v s) = static_tables s.
Proof. reflexivity. Qed.

Lemma setattr_printers jid kw s :
  kw ≠ Kw_assigned_printer_None → printers (setattr jid kw s) = printers s.
Proof. by destruct kw. Qed.

#[global] Arguments setattr : simpl never.

(** Symbolic execution of a manager method on a store. *)
Ltac run_monad :=
  repeat first
    [ progress (unfold bind, gets, modify, ret, raise, void; simpl)
    | erewrite get_job_Some by eassumption
    | rewrite decide_True by first [assumption | congruence | naive_solver]
    | rewrite decide_False by first [assumption | congruence | naive_solver] ].

Lemma enqueue_created_job_Ok s jid job b :
  jobs s !! jid = Some job → Job.idState job = Created →
  check_can_be_printed_job jid s = Ok b s →
  ∃ s', enqueue_created_job jid s = Ok tt s' ∧
        jobs s' = <[jid := Job.mk (Job.name job) Waiting (Job.idFile job) (Job.idUser job)
                             (Some (next_priority_i (lowest_priority_job s) 1)) b 0 0
                             (Job.startedAt job) (Job.finishedAt job)
                             (Job.estimatedTimeLeft job) (Job.interrupted job)
                             (Job.succeed job)]> (jobs s) ∧
        printers s' = printers s ∧ job_extruders s' = job_extruders s ∧
        static_tables s' = static_tables s.
Proof.
  intros Hjob Hst Hchk. unfold enqueue_created_job. run_monad.
  rewrite Hchk. eexists; split; [reflexivity|].
  rewrite !setattr_jobs, !setattr_job_extruders, !setattr_static_tables,
    !setattr_printers by done.
  split; [|done]. rewrite !alter_alter_eq. by rewrite (alter_alt_Some _ _ _ _ Hjob).
Qed.

(** ** Priorities *)

Lemma elem_of_priorities s p : p ∈ priorities s ↔ has_priority (jobs s) p.
Proof.
  unfold priorities, has_priority. rewrite list_elem_of_omap. split.
  - intros (j & Hj & Hp). apply list_elem_of_fmap in Hj as ([k j'] & -> & Hkj).
    apply elem_of_map_to_list in Hkj. eauto.
  - intros (k & j & Hkj & Hp). exists j. split; [|done].
    apply list_elem_of_fmap. exists (k, j). split; [done|].
    by apply elem_of_map_to_list.
Qed.

Lemma foldr_max_ge l : ∀ p x, x ∈ p :: l → x ≤ foldr Z.max p l.
Proof.
  induction l as [|y l IH]; intros p x Hx; simpl.
  - apply list_elem_of_singleton in Hx. lia.
  - apply elem_of_cons in Hx as [->|Hx].
    + specialize (IH p p (list_elem_of_here _ _)). lia.
    + apply elem_of_cons in Hx as [->|Hx]; [lia|].
      specialize (IH p x (list_elem_of_further _ _ _ Hx)). lia.
Qed.

Lemma foldr_min_le l : ∀ p x, x ∈ p :: l → foldr Z.min p l ≤ x.
Proof.
  induction l as [|y l IH]; intros p x Hx; simpl.
  - apply list_elem_of_singleton in Hx. lia.
  - apply elem_of_cons in Hx as [->|Hx].
    + specialize (IH p p (list_elem_of_here _ _)). lia.
    + apply elem_of_cons in Hx as [->|Hx]; [lia|].
      specialize (IH p x (list_elem_of_further _ _ _ Hx)). lia.
Qed.

(** The priority given at the tail of the queue is above every priority in
    use, the one given at the head is below. *)
Lemma tail_priority_above s p :
  has_priority (jobs s) p → p < next_priority_i (lowest_priority_job s) 1.
Proof.
  intros Hp%elem_of_priorities. unfold lowest_priority_job.
  destruct (priorities s) as [|q ps]; [by apply elem_of_nil in Hp|].
  simpl. pose proof (foldr_max_ge ps q p Hp). lia.
Qed.

Lemma head_priority_below s p :
  has_priority (jobs s) p → next_priority_i (highest_priority_job s) (-1) < p.
Proof.
  intros Hp%elem_of_priorities. unfold highest_priority_job.
  destruct (priorities s) as [|q ps]; [by apply elem_of_nil in Hp|].
  simpl. pose proof (foldr_min_le ps q p Hp). lia.
Qed.

Lemma tail_priority_fresh s :
  ¬ has_priority (jobs s) (next_priority_i (lowest_priority_job s) 1).
Proof. intros Hp%tail_priority_above. lia. Qed.

Lemma head_priority_fresh s :
  ¬ has_priority (jobs s) (next_priority_i (highest_priority_job s) (-1)).
Proof. intros Hp%head_priority_below. lia. Qed.

(** ** The invariants under each effect *)

Lemma lookup_shift_job keep delta (m : gmap Z Job.t) k :
  (shift_job keep delta <$> m) !! k = shift_job keep delta <$> m !! k.
Proof. apply lookup_fmap. Qed.

Lemma shift_job_idState keep delta j :
  Job.idState (shift_job keep delta j) = Job.idState j.
Proof. unfold shift_job. by destruct (Job.priority_i j) as [p|]; [destruct (keep p)|]. Qed.

Lemma shift_job_priority_i keep delta j :
  Job.priority_i (shift_job keep delta j) =
    (λ p, if keep p then p + delta else p) <$> Job.priority_i j.
Proof.
  unfold shift_job. destruct (Job.priority_i j) as [p|] eqn:Hp; simpl; [|done].
  by destruct (keep p).
Qed.

(** Shifting the priorities of the other rows by an injective renumbering
    that avoids the new priority of the moved row keeps priorities unique. *)
Lemma shift_unique (m : gmap Z Job.t) jid job orig (keep : Z → bool) delta q :
  m !! jid = Some job → Job.idState job = Waiting → Job.priority_i job = Some orig →
  (∀ p, p ≠ orig → (if keep p then p + delta else p) ≠ q) →
  (∀ p p', p ≠ orig → p' ≠ orig →
     (if keep p then p + delta else p) = (if keep p' then p' + delta else p') → p = p') →
  unique_waiting m →
  unique_waiting (<[jid := Job.set_priority_i (Some q) job]> (shift_job keep delta <$> m)).
Proof.
  intros Hjob Hst Hp Hq Hinj Huniq.
  assert (Hother : ∀ k j p, k ≠ jid →
            (shift_job keep delta <$> m) !! k = Some j →
            Job.idState j = Waiting → Job.priority_i j = Some p →
            ∃ j0 p0, m !! k = Some j0 ∧ Job.idState j0 = Waiting ∧
                     Job.priority_i j0 = Some p0 ∧ p0 ≠ orig ∧
                     p = if keep p0 then p0 + delta else p0).
  { intros k j p Hk Hj Hw Hpj. rewrite lookup_shift_job in Hj.
    destruct (m !! k) as [j0|] eqn:Hj0; simplify_eq/=.
    rewrite shift_job_idState in Hw. rewrite shift_job_priority_i in Hpj.
    destruct (Job.priority_i j0) as [p0|] eqn:Hp0; simplify_eq/=.
    exists j0, p0. repeat split; try done.
    intros ->. apply Hk. by apply (Huniq k jid j0 job orig). }
  intros k1 k2 j1 j2 p H1 H2 Hw1 Hw2 Hp1 Hp2.
  destruct (decide (k1 = jid)) as [->|Hk1], (decide (k2 = jid)) as [->|Hk2]; [done|..].
  - rewrite lookup_insert_eq in H1. rewrite lookup_insert_ne in H2 by done.
    simplify_eq/=. destruct (Hother _ _ _ Hk2 H2 Hw2 Hp2) as (j0 & p0 & _ & _ & _ & Hne & Heq).
    by destruct (Hq p0 Hne).
  - rewrite lookup_insert_eq in H2. rewrite lookup_insert_ne in H1 by done.
    simplify_eq/=. destruct (Hother _ _ _ Hk1 H1 Hw1 Hp1) as (j0 & p0 & _ & _ & _ & Hne & Heq).
    by destruct (Hq p0 Hne).
  - rewrite lookup_insert_ne in H1, H2 by done.
    destruct (Hother _ _ _ Hk1 H1 Hw1 Hp1) as (j0 & p0 & Hj0 & Hw0 & Hp0 & Hne & Heq).
    destruct (Hother _ _ _ Hk2 H2 Hw2 Hp2) as (j0' & p0' & Hj0' & Hw0' & Hp0' & Hne' & Heq').
    assert (p0 = p0') as -> by (apply Hinj; congruence).
    by apply (Huniq k1 k2 j0 j0' p0').
Qed.

Lemma jobs_effect_unique m m' :
  jobs_effect m m' → unique_waiting m → unique_waiting m'.
Proof.
  intros Heff Huniq.
  destruct Heff as [|jid|jid job' Hst Hp|jid job job' Hjob Hst Hst' Hp|jid job' q Hst Hp Hfresh
                   |jid job orig target Hjob Hst Hp Hlt|jid job orig target Hjob Hst Hp Hlt];
    [done|..].
  - intros k1 k2 j1 j2 p H1%lookup_delete_Some H2%lookup_delete_Some.
    destruct H1 as [_ H1], H2 as [_ H2]. eauto.
  - intros k1 k2 j1 j2 p H1 H2 Hw1 Hw2 Hp1 Hp2.
    rewrite lookup_insert in H1, H2.
    repeat case_decide; simplify_eq; try congruence; by eauto.
  - intros k1 k2 j1 j2 p H1 H2 Hw1 Hw2 Hp1 Hp2.
    rewrite lookup_insert in H1, H2.
    repeat case_decide; simplify_eq; try congruence; by eauto.
  - intros k1 k2 j1 j2 p H1 H2 Hw1 Hw2 Hp1 Hp2.
    rewrite lookup_insert in H1, H2.
    repeat case_decide; simplify_eq; [done|..]; try (by eauto);
      destruct Hfresh; red; eauto.
  - apply (shift_unique m jid job orig); try done.
    + intros p Hne. repeat case_bool_decide; simpl; lia.
    + intros p p' Hne Hne'. repeat case_bool_decide; simpl; lia.
  - apply (shift_unique m jid job orig); try done.
    + intros p Hne. repeat case_bool_decide; simpl; lia.
    + intros p p' Hne Hne'. repeat case_bool_decide; simpl; lia.
Qed.

Lemma jobs_effect_coupled m m' :
  jobs_effect m m' → coupled m → coupled m'.
Proof.
  intros Heff Hc.
  destruct Heff as [|jid|jid job' Hst Hp|jid job job' Hjob Hst Hst' Hp|jid job' q Hst Hp Hfresh
                   |jid job orig target Hjob Hst Hp Hlt|jid job orig target Hjob Hst Hp Hlt];
    [done|..]; intros k j Hj.
  - apply lookup_delete_Some in Hj as [_ Hj]. by apply (Hc k).
  - rewrite lookup_insert in Hj. case_decide; simplify_eq; [|by apply (Hc k)].
    rewrite Hp. naive_solver.
  - rewrite lookup_insert in Hj. case_decide; simplify_eq; [|by apply (Hc k)].
    rewrite Hp. destruct (Hc _ _ Hjob) as [Hto Hfrom]. split; [tauto|done].
  - rewrite lookup_insert in Hj. case_decide; simplify_eq; [|by apply (Hc k)].
    rewrite Hp. naive_solver.
  - rewrite lookup_insert in Hj. case_decide; simplify_eq; [done|].
    rewrite lookup_shift_job in Hj. destruct (m !! k) as [j0|] eqn:Hj0; simplify_eq/=.
    rewrite shift_job_idState, shift_job_priority_i, <-(Hc _ _ Hj0).
    by destruct (Job.priority_i j0).
  - rewrite lookup_insert in Hj. case_decide; simplify_eq; [done|].
    rewrite lookup_shift_job in Hj. destruct (m !! k) as [j0|] eqn:Hj0; simplify_eq/=.
    rewrite shift_job_idState, shift_job_priority_i, <-(Hc _ _ Hj0).
    by destruct (Job.priority_i j0).
Qed.

(** ** The effect of each method on the jobs table *)

Lemma set_used_loop_frame idPrinter rows : ∀ s,
  match set_used_loop idPrinter rows s with
  | Ok _ s' | Raised _ s' =>
      jobs s' = jobs s ∧ printers s' = printers s ∧ static_tables s' = static_tables s
  | Detached => True
  end.
Proof.
  induction rows as [|pos rows IH]; intros s; simpl; [done|].
  destruct (job_extruders s !! pos) as [row|]; [|done].
  destruct (printer_extruder_at s idPrinter _) as [[? [ty|] [mat|] ?]|]; try done.
  match goal with |- context [set_used_loop _ _ ?s1] => specialize (IH s1) end.
  destruct (set_used_loop _ _ _); done.
Qed.

Lemma insert_job_effect name idFile idUser s :
  jobs_effect (jobs s) (jobs (store_after s (insert_job name idFile idUser s))).
Proof.
  unfold insert_job. case_decide; [apply eff_none|].
  run_monad. by apply eff_leave.
Qed.

Lemma enqueue_created_job_effect jid s :
  jobs_effect (jobs s) (jobs (store_after s (enqueue_created_job jid s))).
Proof.
  unfold enqueue_created_job, bind at 1, get_job.
  destruct (jobs s !! jid) as [job|] eqn:Hjob; [|apply eff_none].
  case_decide; [apply eff_none|]. unfold bind at 1.
  destruct (check_can_be_printed_job_cases jid s) as [[b ->]| ->]; [|apply eff_none].
  run_monad. rewrite ?setattr_jobs, !alter_alter_eq, (alter_alt_Some _ _ _ _ Hjob).
  eapply eff_enter; [reflexivity..|apply tail_priority_fresh].
Qed.

Lemma set_printing_job_effect jid now s :
  jobs_effect (jobs s) (jobs (store_after s (set_printing_job jid now s))).
Proof.
  unfold set_printing_job, bind at 1, get_job.
  destruct (jobs s !! jid) as [job|] eqn:Hjob; [|apply eff_none].
  destruct (_ || _); [apply eff_none|]. run_monad.
  destruct (assigned_printer s jid); [|apply eff_none]. simpl.
  destruct (files s !! Job.idFile job); [|apply eff_none]. simpl.
  rewrite ?setattr_jobs, !alter_alter_eq, (alter_alt_Some _ _ _ _ Hjob).
  by apply eff_leave.
Qed.

Lemma set_finished_job_effect jid now s :
  jobs_effect (jobs s) (jobs (store_after s (set_finished_job jid now s))).
Proof.
  unfold set_finished_job, bind at 1, get_job.
  destruct (jobs s !! jid) as [job|] eqn:Hjob; [|apply eff_none].
  case_decide as Hst; [apply eff_none|]. run_monad.
  match goal with |- context [assigned_printer ?s1 jid] => set (s1' := s1) end.
  assert (Heff : jobs_effect (jobs s) (jobs s1')).
  { subst s1'. rewrite ?setattr_jobs, !alter_alter_eq, (alter_alt_Some _ _ _ _ Hjob).
    apply (eff_keep _ jid job); [done| |done|done].
    destruct (Job.idState job); naive_solver. }
  destruct (assigned_printer s1' jid) as [[pos printer]|]; [|done]. simpl.
  pose proof (set_used_loop_frame (Printer.id printer) (extruders_data s1' jid) s1') as Hloop.
  destruct (set_used_loop _ _ _); simpl; [| |apply eff_none];
    destruct Hloop as (-> & _); done.
Qed.

Lemma set_done_job_effect jid succeed s :
  jobs_effect (jobs s) (jobs (store_after s (set_done_job jid succeed s))).
Proof.
  unfold set_done_job, bind at 1, get_job.
  destruct (jobs s !! jid) as [job|] eqn:Hjob; [|apply eff_none].
  case_decide as Hst; [apply eff_none|]. run_monad.
  rewrite ?setattr_jobs, !alter_alter_eq, (alter_alt_Some _ _ _ _ Hjob).
  apply (eff_keep _ jid job); [done| |done|done].
  destruct (Job.idState job); naive_solver.
Qed.

Lemma enqueue_printing_or_finished_job_effect jid max_priority s :
  jobs_effect (jobs s)
    (jobs (store_after s (enqueue_printing_or_finished_job jid max_priority s))).
Proof.
  unfold enqueue_printing_or_finished_job, bind at 1, get_job.
  destruct (jobs s !! jid) as [job|] eqn:Hjob; [|apply eff_none].
  case_decide; [apply eff_none|]. unfold bind at 1.
  destruct (check_can_be_printed_job_cases jid s) as [[b ->]| ->]; [|apply eff_none].
  run_monad. rewrite ?setattr_jobs, !alter_alter_eq, (alter_alt_Some _ _ _ _ Hjob).
  eapply eff_enter; [reflexivity..|].
  destruct max_priority; [apply head_priority_fresh|apply tail_priority_fresh].
Qed.

Lemma reprint_done_job_effect jid s :
  jobs_effect (jobs s) (jobs (store_after s (reprint_done_job jid s))).
Proof.
  unfold reprint_done_job, bind at 1, get_job.
  destruct (jobs s !! jid) as [job|] eqn:Hjob; [|apply eff_none].
  case_decide; [apply eff_none|]. unfold bind at 1.
  destruct (check_can_be_printed_job_cases jid s) as [[b ->]| ->]; [|apply eff_none].
  run_monad. rewrite ?setattr_jobs, !alter_alter_eq, (alter_alt_Some _ _ _ _ Hjob).
  eapply eff_enter; [reflexivity..|apply tail_priority_fresh].
Qed.

Lemma assign_job_to_printer_effect pos jid s :
  jobs_effect (jobs s) (jobs (store_after s (assign_job_to_printer pos jid s))).
Proof.
  unfold assign_job_to_printer, bind at 1, get_printer.
  destruct (printers s !! pos) as [printer|]; [|apply eff_none].
  unfold bind at 1, get_job.
  destruct (jobs s !! jid) as [job|]; [|apply eff_none].
  repeat (case_decide || destruct (negb _)); run_monad; apply eff_none.
Qed.

Lemma shift_job_other keep delta job orig :
  Job.priority_i job = Some orig → keep orig = false → shift_job keep delta job = job.
Proof. unfold shift_job. by intros -> ->. Qed.

Lemma reorder_job_in_queue_effect jid after s :
  jobs_effect (jobs s) (jobs (store_after s (reorder_job_in_queue jid after s))).
Proof.
  unfold reorder_job_in_queue, bind at 1, get_job.
  destruct (jobs s !! jid) as [job|] eqn:Hjob; [|apply eff_none].
  case_decide as Hst; [apply eff_none|].
  assert (Job.idState job = Waiting) as Hw by (destruct (Job.idState job); naive_solver).
  destruct after as [aid|].
  - unfold bind at 1.
    destruct (jobs s !! aid) as [after_job|] eqn:Hafter; [|apply eff_none].
    case_decide; [apply eff_none|]. case_decide; [apply eff_none|].
    destruct (Job.priority_i job) as [orig|] eqn:Horig; [|apply eff_none].
    destruct (Job.priority_i after_job) as [target|] eqn:Htarget; [|apply eff_none].
    case_decide as Hlt; [|case_decide as Hgt; [|apply eff_none]]; run_monad.
    + rewrite (alter_alt_Some _ _ _ (shift_job _ 1 job))
        by (by rewrite lookup_shift_job, Hjob).
      rewrite (shift_job_other _ _ _ orig)
        by (done || (apply andb_false_iff; right; apply bool_decide_eq_false; lia)).
      by apply (eff_shift_up _ jid job orig target).
    + rewrite (alter_alt_Some _ _ _ (shift_job _ (-1) job))
        by (by rewrite lookup_shift_job, Hjob).
      rewrite (shift_job_other _ _ _ orig)
        by (done || (apply andb_false_iff; right; apply bool_decide_eq_false; lia)).
      by apply (eff_shift_down _ jid job orig target).
  - run_monad. destruct (highest_priority_job s) as [p|] eqn:Hhigh; [|apply eff_none].
    simpl. rewrite (alter_alt_Some _ _ _ _ Hjob).
    eapply eff_enter; [done|reflexivity|].
    pose proof (head_priority_fresh s) as Hfresh. by rewrite Hhigh in Hfresh.
Qed.

Lemma store_after_void {A} (m : M A) s : store_after s (void m s) = store_after s (m s).
Proof. unfold void, bind, ret. by destruct (m s). Qed.

(** Every exposed operation changes the jobs table in one of the ways of
    [jobs_effect], whatever its outcome. *)
Lemma call_effect op s : jobs_effect (jobs s) (jobs (store_after s (call op s))).
Proof.
  destruct op; simpl; rewrite ?store_after_void.
  - apply enqueue_created_job_effect.
  - apply set_printing_job_effect.
  - apply set_finished_job_effect.
  - apply set_done_job_effect.
  - apply enqueue_printing_or_finished_job_effect.
  - apply reprint_done_job_effect.
  - apply reorder_job_in_queue_effect.
  - apply assign_job_to_printer_effect.
Qed.

Lemma reachable_invariants s :
  reachable s → unique_waiting (jobs s) ∧ coupled (jobs s).
Proof.
  induction 1 as [s Hempty|s name idFile idUser _ [IHu IHc]|s op _ [IHu IHc]
                 |s jid _ [IHu IHc]|s s' _ [IHu IHc] Hjobs].
  - rewrite Hempty. split.
    + intros k1 k2 j1 j2 p H1. by rewrite lookup_empty in H1.
    + intros k j Hj. by rewrite lookup_empty in Hj.
  - pose proof (insert_job_effect name idFile idUser s).
    eauto using jobs_effect_unique, jobs_effect_coupled.
  - pose proof (call_effect op s).
    eauto using jobs_effect_unique, jobs_effect_coupled.
  - pose proof (eff_delete (jobs s) jid).
    eauto using jobs_effect_unique, jobs_effect_coupled.
  - by rewrite Hjobs.
Qed.

(** * The claims *)

Lemma one_waiting_reachable : reachable one_waiting.
Proof.
  apply (reach_call (store_after empty_fleet (insert_job "part" 1 1 empty_fleet))
                    (EnqueueJob 1)).
  apply (reach_insert empty_fleet), reach_init. reflexivity.
Qed.

(** C5.  In every state reachable through the operations of the job
    manager no two Waiting jobs hold the same priority, and the state any
    exposed operation leaves behind, whether it returns or raises, has the
    same property. *)
Theorem waiting_priorities_unique s op :
  reachable s →
  unique_waiting (jobs s) ∧ unique_waiting (jobs (store_after s (call op s))).
Proof.
  intros Hreach. split.
  - by apply reachable_invariants.
  - by apply (reachable_invariants _ (reach_call s op Hreach)).
Qed.

Lemma waiting_priorities_unique_witness :
  reachable two_waiting ∧
  (Job.idState <$> jobs two_waiting !! 1 = Some Waiting ∧
   Job.priority_i <$> jobs two_waiting !! 1 = Some (Some 1) ∧
   Job.idState <$> jobs two_waiting !! 2 = Some Waiting ∧
   Job.priority_i <$> jobs two_waiting !! 2 = Some (Some 2)) ∧
  unique_waiting (jobs two_waiting) ∧
  unique_waiting (jobs (store_after two_waiting (call (ReorderJob 1 (Some 2)) two_waiting))) ∧
  (Job.priority_i <$>
     jobs (store_after two_waiting (call (ReorderJob 1 (Some 2)) two_waiting)) !! 1
     = Some (Some 2) ∧
   Job.priority_i <$>
     jobs (store_after two_waiting (call (ReorderJob 1 (Some 2)) two_waiting)) !! 2
     = Some (Some 1)).
Proof.
  assert (Hreach : reachable two_waiting).
  { apply (reach_call (store_after one_waiting (insert_job "bracket" 1 1 one_waiting))
                      (EnqueueJob 2)).
    apply (reach_insert one_waiting), one_waiting_reachable. }
  split; [exact Hreach|].
  split; [split_and!; reflexivity|].
  destruct (waiting_priorities_unique two_waiting (ReorderJob 1 (Some 2)) Hreach)
    as [Hbefore Hafter].
  split; [exact Hbefore|]. split; [exact Hafter|]. split; reflexivity.
Defined.

(** C10.  For a Waiting job that can be printed and a printer without a
    current job, [assign_job_to_printer] returns the printer with its
    current-job reference set to the job; every other column of that
    printer, every other printer, every job and every other table are as
    before the call. *)
Theorem assign_job_to_printer_frame s pos jid printer job :
  printers s !! pos = Some printer →
  jobs s !! jid = Some job →
  Job.idState job = Waiting →
  Job.canBePrinted job = true →
  Printer.idCurrentJob printer = None →
  ∃ s', assign_job_to_printer pos jid s = Ok pos s' ∧
        printers s' !! pos =
          Some (Printer.mk (Printer.id printer) (Printer.idState printer) (Some jid)) ∧
        (∀ pos', pos' ≠ pos → printers s' !! pos' = printers s !! pos') ∧
        jobs s' = jobs s ∧
        job_extruders s' = job_extruders s ∧
        static_tables s' = static_tables s.
Proof.
  intros Hprinter Hjob Hst Hcan Hfree.
  unfold assign_job_to_printer, bind at 1, get_printer. rewrite Hprinter.
  run_monad. rewrite Hcan. simpl. run_monad.
  eexists. split; [reflexivity|]. simpl. split_and!; try done.
  - rewrite list_lookup_insert_eq; [done|]. by apply lookup_lt_Some in Hprinter.
  - intros pos' Hne. by rewrite list_lookup_insert_ne.
Qed.

Lemma assign_job_to_printer_frame_witness :
  ∃ s', assign_job_to_printer 0 1 one_waiting = Ok 0%nat s' ∧
        printers s' !! 0%nat = Some (Printer.mk 2 1 (Some 1)) ∧
        (∀ pos', pos' ≠ 0%nat → printers s' !! pos' = printers one_waiting !! pos') ∧
        jobs s' = jobs one_waiting ∧
        job_extruders s' = job_extruders one_waiting ∧
        static_tables s' = static_tables one_waiting.
Proof.
  apply (assign_job_to_printer_frame one_waiting 0 1 (Printer.mk 2 1 None)
           (Job.mk "part" Waiting 1 1 (Some 1) true 0 0 None None None false None));
    reflexivity.
Defined.

(** The run of [reorder_job_in_queue] behind another job once its checks
    have passed. *)
Lemma reorder_job_in_queue_behind s jid aid job after_job orig target :
  jobs s !! jid = Some job → jobs s !! aid = Some after_job → jid ≠ aid →
  Job.idState job = Waiting → Job.idState after_job = Waiting →
  Job.priority_i job = Some orig → Job.priority_i after_job = Some target →
  reorder_job_in_queue jid (Some aid) s =
    if decide (target < orig) then
      Ok None (alter_job (Job.set_priority_i (Some (target + 1))) jid
                 (set_jobs (shift_job (λ p, bool_decide (p > target) &&
                                            bool_decide (p < orig)) 1 <$> jobs s) s))
    else if decide (target > orig) then
      Ok None (alter_job (Job.set_priority_i (Some target)) jid
                 (set_jobs (shift_job (λ p, bool_decide (p <= target) &&
                                            bool_decide (p > orig)) (-1) <$> jobs s) s))
    else Ok None s.
Proof.
  intros Hjob Hafter Hne Hw Hwa Horig Htarget.
  unfold reorder_job_in_queue. run_monad. rewrite Horig, Htarget.
  repeat case_decide; reflexivity.
Qed.

(** C2.  Reordering a Waiting job (priority [orig]) behind a different
    Waiting job (priority [target]) returns, and: when [target < orig] the
    Waiting jobs with a priority strictly between [target] and [orig] are
    incremented by one and the moved job gets [target + 1]; when
    [target > orig] the Waiting jobs with a priority in [(orig, target]] are
    decremented by one and the moved job gets [target]; a job whose priority
    is outside that range, or that has none, is unchanged, and so is every
    job that is not Waiting when the store couples priorities with the
    Waiting state; no job appears or disappears and the other tables are
    unchanged.  In the dense queue 1..5, moving job 3 behind job 1 gives
    the queue job 1, job 3, job 2, job 4, job 5 with priorities 1..5. *)
Theorem reorder_job_in_queue_shifts s jid aid job after_job orig target :
  jobs s !! jid = Some job → jobs s !! aid = Some after_job → jid ≠ aid →
  Job.idState job = Waiting → Job.idState after_job = Waiting →
  Job.priority_i job = Some orig → Job.priority_i after_job = Some target →
  ∃ s', reorder_job_in_queue jid (Some aid) s = Ok None s' ∧
    (target < orig →
       jobs s' !! jid = Some (Job.set_priority_i (Some (target + 1)) job) ∧
       ∀ k j, k ≠ jid → jobs s !! k = Some j →
         (∀ p, Job.idState j = Waiting → Job.priority_i j = Some p →
               target < p < orig →
               jobs s' !! k = Some (Job.set_priority_i (Some (p + 1)) j)) ∧
         ((∀ p, Job.priority_i j = Some p → ¬ target < p < orig) →
          jobs s' !! k = Some j) ∧
         (coupled (jobs s) → Job.idState j ≠ Waiting → jobs s' !! k = Some j)) ∧
    (target > orig →
       jobs s' !! jid = Some (Job.set_priority_i (Some target) job) ∧
       ∀ k j, k ≠ jid → jobs s !! k = Some j →
         (∀ p, Job.idState j = Waiting → Job.priority_i j = Some p →
               orig < p ≤ target →
               jobs s' !! k = Some (Job.set_priority_i (Some (p - 1)) j)) ∧
         ((∀ p, Job.priority_i j = Some p → ¬ orig < p ≤ target) →
          jobs s' !! k = Some j) ∧
         (coupled (jobs s) → Job.idState j ≠ Waiting → jobs s' !! k = Some j)) ∧
    (∀ k, jobs s !! k = None → jobs s' !! k = None) ∧
    printers s' = printers s ∧ job_extruders s' = job_extruders s ∧
    static_tables s' = static_tables s ∧
    (s = dense_queue → jid = 3 → aid = 1 →
     queue s' = [(1, Some 1); (3, Some 2); (2, Some 3); (4, Some 4); (5, Some 5)]).
Proof.
  intros Hjob Hafter Hne Hw Hwa Horig Htarget.
  rewrite (reorder_job_in_queue_behind s jid aid job after_job orig target) by done.
  assert (Hkeep_up : (bool_decide (orig > target) && bool_decide (orig < orig)) = false)
    by (apply andb_false_iff; right; apply bool_decide_eq_false; lia).
  assert (Hkeep_down : (bool_decide (orig <= target) && bool_decide (orig > orig)) = false)
    by (apply andb_false_iff; right; apply bool_decide_eq_false; lia).
  assert (Hnone : ∀ (keep : Z → bool) delta j,
            (∀ p, Job.priority_i j = Some p → keep p = false) →
            shift_job keep delta j = j).
  { intros keep delta j Hout. unfold shift_job.
    destruct (Job.priority_i j) as [p|]; [|done]. by rewrite (Hout p). }
  assert (Hnot_waiting : ∀ k j, coupled (jobs s) → jobs s !! k = Some j →
            Job.idState j ≠ Waiting → ∀ p, Job.priority_i j = Some p → False).
  { intros k j Hc Hj Hst p Hp. apply Hst, (Hc k j Hj). by rewrite Hp. }
  destruct (decide (target < orig)) as [Hlt|Hnlt];
    [|destruct (decide (target > orig)) as [Hgt|Hngt]];
    eexists; (split; [reflexivity|]); simpl; split_and!; try done; try (intros; lia).
  - intros _. split.
    + rewrite lookup_alter_eq, lookup_shift_job, Hjob. simpl.
      by rewrite (shift_job_other _ _ _ orig).
    + intros k j Hk Hj. rewrite lookup_alter_ne, lookup_shift_job, Hj by done. simpl.
      split_and!.
      * intros p _ Hp Hrange. unfold shift_job. rewrite Hp.
        by rewrite !bool_decide_eq_true_2 by lia.
      * intros Hout. rewrite Hnone; [done|]. intros p Hp. specialize (Hout p Hp).
        apply andb_false_iff.
        destruct (decide (p > target)); [right|left]; apply bool_decide_eq_false; lia.
      * intros Hc Hst. rewrite Hnone; [done|]. intros p Hp.
        by destruct (Hnot_waiting k j Hc Hj Hst p).
  - intros k Hk. destruct (decide (k = jid)) as [->|Hkj]; [congruence|].
    by rewrite lookup_alter_ne, lookup_shift_job, Hk.
  - intros -> -> ->. vm_compute in Hjob, Hafter. simplify_eq.
    vm_compute in Horig, Htarget. simplify_eq. vm_compute. reflexivity.
  - intros _. split.
    + rewrite lookup_alter_eq, lookup_shift_job, Hjob. simpl.
      by rewrite (shift_job_other _ _ _ orig).
    + intros k j Hk Hj. rewrite lookup_alter_ne, lookup_shift_job, Hj by done. simpl.
      split_and!.
      * intros p _ Hp Hrange. unfold shift_job. rewrite Hp.
        by rewrite !bool_decide_eq_true_2 by lia.
      * intros Hout. rewrite Hnone; [done|]. intros p Hp. specialize (Hout p Hp).
        apply andb_false_iff.
        destruct (decide (p ≤ target)); [right|left]; apply bool_decide_eq_false; lia.
      * intros Hc Hst. rewrite Hnone; [done|]. intros p Hp.
        by destruct (Hnot_waiting k j Hc Hj Hst p).
  - intros k Hk. destruct (decide (k = jid)) as [->|Hkj]; [congruence|].
    by rewrite lookup_alter_ne, lookup_shift_job, Hk.
  - intros -> -> ->. vm_compute in Hjob, Hafter. simplify_eq.
    vm_compute in Horig, Htarget. simplify_eq; lia.
  - intros -> -> ->. vm_compute in Hjob, Hafter. simplify_eq.
    vm_compute in Horig, Htarget. simplify_eq; lia.
Qed.

Lemma reorder_job_in_queue_shifts_witness :
  ∃ s', reorder_job_in_queue 3 (Some 1) dense_queue = Ok None s' ∧
        jobs s' !! 3 = Some (waiting_job 2) ∧
        jobs s' !! 2 = Some (waiting_job 3) ∧
        jobs s' !! 4 = Some (waiting_job 4) ∧
        queue s' = [(1, Some 1); (3, Some 2); (2, Some 3); (4, Some 4); (5, Some 5)].
Proof.
  destruct (reorder_job_in_queue_shifts dense_queue 3 1 (waiting_job 3) (waiting_job 1) 3 1)
    as (s' & Hrun & Hup & _ & _ & _ & _ & _ & Hdense);
    [reflexivity|reflexivity|lia|reflexivity|reflexivity|reflexivity|reflexivity|].
  destruct Hup as [Hmoved Hothers]; [lia|].
  exists s'. split_and!.
  - exact Hrun.
  - exact Hmoved.
  - destruct (Hothers 2 (waiting_job 2)) as [Hin _]; [lia|reflexivity|].
    apply (Hin 2); [reflexivity|reflexivity|lia].
  - destruct (Hothers 4 (waiting_job 4)) as (_ & Hout & _); [lia|reflexivity|].
    apply Hout. intros p [= <-]. lia.
  - by apply Hdense.
Defined.

(** C3, as amended.  When the state of the job does not satisfy the
    precondition of an exposed transition, the transition raises
    [InvalidParameter] (the manager has no other exception for it) and the
    store, and with it every column of the job, is exactly as before the
    call. *)
Theorem illegal_transition_raises op s job :
  jobs s !! op_job op = Some job →
  op_printer_live op s →
  state_precondition op (Job.idState job) = false ∨ after_not_waiting op s →
  ∃ msg, call op s = Raised (InvalidParameter msg) s.
Proof.
  intros Hjob Hlive [Hpre|Hafter]; cycle 1.
  { destruct op as [| | | | | |jid [aid|]|]; try done.
    destruct Hafter as (after_job & Hafter & Hst). simpl in Hjob.
    unfold call, reorder_job_in_queue. run_monad.
    destruct (decide (Job.idState job ≠ Waiting)); run_monad; eauto. }
  destruct op; simpl in *; apply bool_decide_eq_false in Hpre.
  - unfold enqueue_created_job. run_monad. eauto.
  - unfold set_printing_job. run_monad.
    rewrite (bool_decide_eq_true_2 (Job.idState job ≠ Waiting)), orb_true_r by done. eauto.
  - unfold set_finished_job. run_monad. eauto.
  - unfold set_done_job. run_monad. eauto.
  - unfold enqueue_printing_or_finished_job. run_monad. eauto.
  - unfold reprint_done_job. run_monad. eauto.
  - unfold reorder_job_in_queue. run_monad. eauto.
  - destruct Hlive as [printer Hprinter].
    unfold assign_job_to_printer, void, bind at 1 2, get_printer. rewrite Hprinter.
    run_monad. eauto.
Qed.

Lemma illegal_transition_raises_witness :
  ∃ msg, call (FinishJob 1 20) one_waiting = Raised (InvalidParameter msg) one_waiting.
Proof.
  apply (illegal_transition_raises (FinishJob 1 20) one_waiting
           (Job.mk "part" Waiting 1 1 (Some 1) true 0 0 None None None false None));
    [reflexivity|exact I|left; reflexivity].
Defined.

(** C3, as stated, fails: finishing a Waiting job leaves the store
    untouched but the exception is [InvalidParameter], not [InvalidState]. *)
Lemma finish_waiting_job_not_InvalidState :
  Job.idState <$> jobs one_waiting !! 1 = Some Waiting ∧
  call (FinishJob 1 20) one_waiting =
    Raised (InvalidParameter
              "The job needs to be in 'Printing' state to change to 'Finished' state")
           one_waiting ∧
  ¬ ∃ e s', call (FinishJob 1 20) one_waiting = Raised e s' ∧ exn_name e = "InvalidState".
Proof.
  split_and!; [reflexivity|reflexivity|].
  intros (e & s' & Hcall & Hname).
  vm_compute in Hcall. injection Hcall as <- _. discriminate Hname.
Qed.

Lemma run_reachable ops : ∀ s, reachable s → reachable (run ops s).
Proof.
  induction ops as [|op ops IH]; intros s Hs; [done|].
  apply IH. by apply reach_call.
Qed.

(** C4, failing input.  The store [unloaded_printing] is reached through
    the exposed operations alone.  Finishing its Printing job raises
    [AttributeError] after the job row has been written: the job is left
    Finished with [finishedAt], [progress] and [estimatedTimeLeft] set.  The
    same happens for a Printing job that no printer holds. *)
Theorem set_finished_job_partial_write :
  reachable unloaded_printing ∧
  jobs unloaded_printing !! 1 = Some printing_job ∧
  (∃ s', call (FinishJob 1 20) unloaded_printing = Raised AttributeError s' ∧
         jobs s' !! 1 =
           Some (Job.mk "part" Finished 1 1 None true 0 100 (Some 10) (Some 20) (Some 0)
                        false None) ∧
         s' ≠ unloaded_printing) ∧
  (∃ s', call (FinishJob 1 20) printing_unassigned = Raised AttributeError s' ∧
         jobs s' !! 1 =
           Some (Job.mk "part" Finished 1 1 None true 0 100 (Some 10) (Some 20) (Some 0)
                        false None)).
Proof.
  split_and!.
  - apply run_reachable, (reach_insert unloaded_fleet), reach_init. reflexivity.
  - reflexivity.
  - eexists. split_and!; [reflexivity..|].
    intros Heq. apply (f_equal (λ s, Job.idState <$> jobs s !! 1)) in Heq.
    vm_compute in Heq. discriminate Heq.
  - eexists. split; reflexivity.
Qed.

(** C1, failing input.  With two operational printers of which the first
    holds the wrong material and the second the right one, the second
    printer survives every index check, yet the matcher raises
    [IndexError] in both return formats instead of answering. *)
Theorem check_can_be_printed_job_index_error :
  isPrintable_printers two_printers 1 = [Printer.mk 2 1 None] ∧
  isPrintable two_printers 1 = true ∧
  check_can_be_printed_job 1 two_printers = Raised IndexError two_printers ∧
  check_can_be_printed_job_printers 1 two_printers = Raised IndexError two_printers.
Proof. split_and!; reflexivity. Qed.

(** C7, failing input.  Enqueueing the Created job of [two_printers], which
    the second printer can print, raises [IndexError] out of the matcher and
    leaves the job Created without a priority. *)
Theorem enqueue_created_job_index_error :
  jobs two_printers !! 1 = Some (new_job "part" 1 1) ∧
  isPrintable two_printers 1 = true ∧
  enqueue_created_job 1 two_printers = Raised IndexError two_printers.
Proof. split_and!; reflexivity. Qed.

(** C9, failing input.  Requeueing the Printing job, or reprinting the Done
    job, in the fleet where the first of two operational printers holds the
    wrong material raises [IndexError] out of the matcher; [retries] is left
    as it was. *)
Theorem requeue_reprint_index_error :
  jobs two_printers_printing !! 1 = Some printing_job ∧
  enqueue_printing_or_finished_job 1 false two_printers_printing
    = Raised IndexError two_printers_printing ∧
  enqueue_printing_or_finished_job 1 true two_printers_printing
    = Raised IndexError two_printers_printing ∧
  jobs two_printers_done !! 1 = Some done_job ∧
  reprint_done_job 1 two_printers_done = Raised IndexError two_printers_done.
Proof. split_and!; reflexivity. Qed.


(** ** Finishing a job *)

Lemma elem_of_extruders_data s jid pos :
  pos ∈ extruders_data s jid ↔
  ∃ row, job_extruders s !! pos = Some row ∧ JobExtruder.idJob row = jid.
Proof.
  unfold extruders_data. rewrite list_elem_of_filter, elem_of_seq. split.
  - intros [Hid _]. destruct (job_extruders s !! pos) as [row|]; simplify_eq/=. eauto.
  - intros (row & Hrow & <-). rewrite Hrow. split; [done|].
    apply lookup_lt_Some in Hrow. lia.
Qed.

Lemma NoDup_extruders_data s jid : NoDup (extruders_data s jid).
Proof. apply NoDup_filter, NoDup_seq. Qed.

(** The loop only visits rows of the table. *)
Lemma set_used_loop_live idPrinter rows : ∀ s,
  (∀ pos, pos ∈ rows → (pos < length (job_extruders s))%nat) →
  set_used_loop idPrinter rows s ≠ Detached.
Proof.
  induction rows as [|pos rows IH]; intros s Hrows; simpl; [done|].
  destruct (job_extruders s !! pos) as [row|] eqn:Hrow.
  - destruct (printer_extruder_at s idPrinter _) as [[? [ty|] [mat|] ?]|]; try done.
    apply IH. intros pos' Hpos'. simpl. rewrite length_insert.
    by apply Hrows, list_elem_of_further.
  - apply lookup_ge_None in Hrow.
    specialize (Hrows pos (list_elem_of_here _ _)). lia.
Qed.

(** When the printer holds an extruder type and a material at the index of
    every row, the loop returns with exactly these rows filled in. *)
Lemma set_used_loop_Ok idPrinter rows : ∀ s,
  NoDup rows →
  (∀ pos, pos ∈ rows →
     ∃ row pe ty mat,
       job_extruders s !! pos = Some row ∧
       printer_extruder_at s idPrinter (JobExtruder.extruderIndex row) = Some pe ∧
       PrinterExtruder.idExtruderType pe = Some ty ∧
       PrinterExtruder.idMaterial pe = Some mat) →
  ∃ s', set_used_loop idPrinter rows s = Ok tt s' ∧
        jobs s' = jobs s ∧ printers s' = printers s ∧
        static_tables s' = static_tables s ∧
        ∀ i, job_extruders s' !! i =
               (λ row, if decide (i ∈ rows) then copy_used s idPrinter row else row)
                 <$> job_extruders s !! i.
Proof.
  induction rows as [|pos rows IH]; intros s Hnodup Hrows; simpl.
  - eexists. split_and!; try done. intros i.
    destruct (job_extruders s !! i) as [row|]; simpl; [|done].
    destruct (decide (i ∈ [])) as [Hin|]; [|done]. by apply elem_of_nil in Hin.
  - apply NoDup_cons in Hnodup as [Hpos Hnodup].
    destruct (Hrows pos) as (row & [a ty' mat' d] & ty & mat & Hrow & Hpe & Hty & Hmat);
      [apply list_elem_of_here|]. simpl in Hty, Hmat. subst ty' mat'.
    rewrite Hrow, Hpe.
    set (s1 := set_job_extruders _ s).
    destruct (IH s1 Hnodup) as (s' & Hrun & Hjobs & Hprinters & Hstatic & Hused).
    { intros pos' Hpos'. destruct (Hrows pos') as (row' & pe' & ty' & mat' & Hrow' & Hrest);
        [by apply list_elem_of_further|].
      exists row', pe', ty', mat'. split; [|done].
      subst s1. simpl. rewrite list_lookup_insert_ne; [done|]. by intros ->. }
    exists s'. split_and!; try done. intros i. rewrite Hused. subst s1. simpl.
    destruct (decide (i = pos)) as [->|Hne].
    + rewrite list_lookup_insert_eq by (by apply lookup_lt_Some in Hrow).
      rewrite Hrow. simpl. rewrite decide_False by done.
      rewrite decide_True by apply list_elem_of_here.
      unfold copy_used. by rewrite Hpe.
    + rewrite list_lookup_insert_ne by done.
      destruct (job_extruders s !! i) as [row'|]; simpl; [|done].
      destruct (decide (i ∈ rows)) as [Hin|Hnin].
      * by rewrite decide_True by (by apply list_elem_of_further).
      * rewrite decide_False; [done|]. by intros [?|?]%elem_of_cons.
Qed.

(** Finishing a Printing job writes Finished, [finishedAt] (the current
    time), [progress] 100 and [estimatedTimeLeft] 0 into the job row and
    leaves its other columns and every other job alone, whatever the
    outcome of the call.  When the printer the job is assigned to holds an
    extruder type and a material at the extruder index of each of the job's
    extruder rows, the call returns and each of these rows has that type
    and that material as its used type and used material; the rows of other
    jobs, the printers and the other tables are unchanged. *)
Lemma set_finished_job_effects s jid job now :
  jobs s !! jid = Some job →
  Job.idState job = Printing →
  jobs (store_after s (set_finished_job jid now s)) =
    <[jid := Job.mk (Job.name job) Finished (Job.idFile job) (Job.idUser job)
               (Job.priority_i job) (Job.canBePrinted job) (Job.retries job) 100
               (Job.startedAt job) (Some now) (Some 0) (Job.interrupted job)
               (Job.succeed job)]> (jobs s) ∧
  ∀ pos printer,
    assigned_printer s jid = Some (pos, printer) →
    (∀ row, row ∈ job_extruders s → JobExtruder.idJob row = jid →
       ∃ pe ty mat,
         printer_extruder_at s (Printer.id printer) (JobExtruder.extruderIndex row) = Some pe ∧
         PrinterExtruder.idExtruderType pe = Some ty ∧
         PrinterExtruder.idMaterial pe = Some mat) →
    ∃ s', set_finished_job jid now s = Ok tt s' ∧
          printers s' = printers s ∧ static_tables s' = static_tables s ∧
          ∀ i row, job_extruders s !! i = Some row →
            job_extruders s' !! i =
              Some (if decide (JobExtruder.idJob row = jid)
                    then copy_used s (Printer.id printer) row else row).
Proof.
  intros Hjob Hst.
  assert (Hrun : set_finished_job jid now s =
            let s1 := set_jobs (<[jid := Job.mk (Job.name job) Finished (Job.idFile job)
                         (Job.idUser job) (Job.priority_i job) (Job.canBePrinted job)
                         (Job.retries job) 100 (Job.startedAt job) (Some now) (Some 0)
                         (Job.interrupted job) (Job.succeed job)]> (jobs s)) s in
            match assigned_printer s jid with
            | None => Raised AttributeError s1
            | Some (_, printer) =>
                set_used_loop (Printer.id printer) (extruders_data s jid) s1
            end).
  { unfold set_finished_job. run_monad. unfold setattr, alter_job. simpl.
    rewrite !alter_alter_eq, (alter_alt_Some _ _ _ _ Hjob).
    unfold assigned_printer. simpl. by destruct (list_find _ _) as [[??]|]. }
  rewrite Hrun. simpl. split.
  - destruct (assigned_printer s jid) as [[pos printer]|]; [|done].
    match goal with |- context [set_used_loop ?a ?b ?c] =>
      pose proof (set_used_loop_frame a b c) as Hframe;
      pose proof (set_used_loop_live a b c) as Hlive end.
    destruct (set_used_loop _ _ _); simpl; [by destruct Hframe as [-> _]..|].
    destruct Hlive; [|done]. intros pos' (row & Hrow & _)%elem_of_extruders_data.
    simpl. by apply lookup_lt_Some in Hrow.
  - intros pos printer Hprinter Hrows. rewrite Hprinter.
    match goal with |- context [set_used_loop ?a ?b ?c] =>
      destruct (set_used_loop_Ok a b c) as (s' & -> & _ & Hprinters & Hstatic & Hused) end.
    { apply NoDup_extruders_data. }
    { intros pos' (row & Hrow & Hid)%elem_of_extruders_data.
      destruct (Hrows row) as (pe & ty & mat & Hpe); [by eapply list_elem_of_lookup_2|done|].
      by exists row, pe, ty, mat. }
    exists s'. split_and!; try done. intros i row Hrow. rewrite Hused. simpl.
    rewrite Hrow. simpl. f_equal.
    destruct (decide (JobExtruder.idJob row = jid)) as [Hid|Hid].
    + rewrite decide_True; [done|]. apply elem_of_extruders_data. eauto.
    + rewrite decide_False; [done|].
      intros (row' & Hrow' & Hid')%elem_of_extruders_data. congruence.
Qed.

Lemma set_finished_job_effects_loaded :
  jobs (store_after one_printing (set_finished_job 1 20 one_printing)) =
    <[1 := Job.mk "part" Finished 1 1 None true 0 100 (Some 10) (Some 20) (Some 0)
                  false None]> (jobs one_printing) ∧
  ∃ s', set_finished_job 1 20 one_printing = Ok tt s' ∧
        job_extruders s' !! 0%nat = Some (JobExtruder.mk 1 0 (Some 1) (Some PLA)).
Proof.
  destruct (set_finished_job_effects one_printing 1 printing_job 20)
    as [Hjob Hrows]; [reflexivity|reflexivity|].
  split; [exact Hjob|].
  destruct (Hrows 0%nat (Printer.mk 2 1 (Some 1))) as (s' & Hrun & _ & _ & Hused);
    [reflexivity| |].
  - intros row Hrow _. vm_compute in Hrow. apply list_elem_of_singleton in Hrow. subst row.
    exists (PrinterExtruder.mk 2 (Some 1) (Some PLA) 0), 1, PLA.
    split_and!; reflexivity.
  - exists s'. split; [exact Hrun|].
    apply (Hused 0%nat (JobExtruder.mk 1 0 None None)). reflexivity.
Qed.

(** The row the loop reads is the first row of the printer at the index:
    it belongs to that printer, it is for that index, and no row before it
    in the table is. *)
Lemma printer_extruder_at_spec s idPrinter index pe :
  printer_extruder_at s idPrinter index = Some pe →
  ∃ i, printer_extruders s !! i = Some pe ∧
       PrinterExtruder.idPrinter pe = idPrinter ∧ PrinterExtruder.index pe = index ∧
       ∀ j e, printer_extruders s !! j = Some e → (j < i)%nat →
              ¬ (PrinterExtruder.idPrinter e = idPrinter ∧ PrinterExtruder.index e = index).
Proof.
  unfold printer_extruder_at.
  destruct (list_find _ _) as [[i e]|] eqn:Hfind; [|done].
  intros [= <-]. apply list_find_Some in Hfind as (Hi & [Hp Hidx] & Hfirst).
  exists i. split_and!; try done.
Qed.

(** C8, failing input.  In the store [unloaded_printing], reached through
    the exposed operations alone, job 1 is Printing on the printer with id
    2, whose extruder 0 holds extruder type 1 and no material, and the job
    has one extruder row, for index 0.  Finishing the job raises
    [AttributeError] while it reads the material: the row keeps a null used
    extruder type and a null used material, so the extruder type the
    printer holds at that index has not been copied into the row. *)
Theorem set_finished_job_copies_nothing :
  reachable unloaded_printing ∧
  Job.idState <$> jobs unloaded_printing !! 1 = Some Printing ∧
  assigned_printer unloaded_printing 1 = Some (0%nat, Printer.mk 2 1 (Some 1)) ∧
  printer_extruders unloaded_printing = [PrinterExtruder.mk 2 (Some 1) None 0] ∧
  job_extruders unloaded_printing = [JobExtruder.mk 1 0 None None] ∧
  ∃ s', set_finished_job 1 20 unloaded_printing = Raised AttributeError s' ∧
        job_extruders s' = [JobExtruder.mk 1 0 None None] ∧
        job_extruders s' ≠ [JobExtruder.mk 1 0 (Some 1) None].
Proof.
  split_and!; try reflexivity.
  - apply run_reachable, (reach_insert unloaded_fleet), reach_init. reflexivity.
  - eexists. split_and!; [reflexivity|reflexivity|]. vm_compute. discriminate.
Qed.

(** ** Entering the queue when the matcher returns *)

(** Requeueing a Printing or Finished job for which the matcher returns
    puts it at the head or the tail of the queue with one more retry and
    resets the used columns of its extruder rows. *)
Lemma enqueue_printing_or_finished_job_Ok s jid job max_priority b :
  jobs s !! jid = Some job →
  Job.idState job = Printing ∨ Job.idState job = Finished →
  check_can_be_printed_job jid s = Ok b s →
  ∃ s', enqueue_printing_or_finished_job jid max_priority s = Ok tt s' ∧
        jobs s' =
          <[jid := Job.mk (Job.name job) Waiting (Job.idFile job) (Job.idUser job)
                     (Some (if max_priority
                            then next_priority_i (highest_priority_job s) (-1)
                            else next_priority_i (lowest_priority_job s) 1))
                     b (Job.retries job + 1) 0 None None None
                     (Job.interrupted job) (Job.succeed job)]> (jobs s) ∧
        job_extruders s' = reset_used jid <$> job_extruders s ∧
        static_tables s' = static_tables s.
Proof.
  intros Hjob Hst Hchk.
  assert (¬ (Job.idState job ≠ Printing ∧ Job.idState job ≠ Finished)) as Hdec
    by (intros [??]; by destruct Hst).
  clear Hst. unfold enqueue_printing_or_finished_job. run_monad.
  rewrite Hchk. eexists; split; [reflexivity|]. simpl.
  rewrite static_tables_set_job_extruders.
  rewrite ?setattr_jobs, ?setattr_job_extruders, ?setattr_static_tables.
  split; [|done]. by rewrite !alter_alter_eq, (alter_alt_Some _ _ _ _ Hjob).
Qed.

(** Reprinting a Done job for which the matcher returns puts it at the tail
    of the queue with no retries and resets the used columns of its
    extruder rows. *)
Lemma reprint_done_job_Ok s jid job b :
  jobs s !! jid = Some job →
  Job.idState job = Done →
  check_can_be_printed_job jid s = Ok b s →
  ∃ s', reprint_done_job jid s = Ok tt s' ∧
        jobs s' =
          <[jid := Job.mk (Job.name job) Waiting (Job.idFile job) (Job.idUser job)
                     (Some (next_priority_i (lowest_priority_job s) 1))
                     b 0 0 None None None
                     (Job.interrupted job) (Job.succeed job)]> (jobs s) ∧
        job_extruders s' = reset_used jid <$> job_extruders s ∧
        static_tables s' = static_tables s.
Proof.
  intros Hjob Hst Hchk. unfold reprint_done_job. run_monad.
  rewrite Hchk. eexists; split; [reflexivity|]. simpl.
  rewrite static_tables_set_job_extruders.
  rewrite ?setattr_jobs, ?setattr_job_extruders, ?setattr_static_tables.
  split; [|done]. by rewrite !alter_alter_eq, (alter_alt_Some _ _ _ _ Hjob).
Qed.

(** ** Raising before writing *)

(** Every exposed operation other than finishing a job raises, if it
    raises, before it has written anything. *)
Lemma raise_before_write op s e s' :
  (∀ jid now, op ≠ FinishJob jid now) →
  call op s = Raised e s' → s' = s.
Proof.
  intros Hop. destruct op as [jid|jid now|jid now|jid succeeded|jid toHead|jid
                             |jid after|pos jid]; simpl.
  - unfold enqueue_created_job, bind at 1, get_job.
    destruct (jobs s !! jid) as [job|]; [|done].
    case_decide; [by intros [= _ <-]|]. unfold bind at 1.
    destruct (check_can_be_printed_job_cases jid s) as [[b ->]| ->];
      [|by intros [= _ <-]].
    by run_monad.
  - unfold set_printing_job, bind at 1, get_job.
    destruct (jobs s !! jid) as [job|]; [|done].
    destruct (_ || _); [by intros [= _ <-]|]. run_monad.
    destruct (assigned_printer s jid); simpl; [|by intros [= _ <-]].
    by destruct (files s !! Job.idFile job); simpl; [|intros [= _ <-]].
  - by destruct (Hop jid now).
  - unfold set_done_job, bind at 1, get_job.
    destruct (jobs s !! jid) as [job|]; [|done].
    case_decide; [by intros [= _ <-]|]. by run_monad.
  - unfold enqueue_printing_or_finished_job, bind at 1, get_job.
    destruct (jobs s !! jid) as [job|]; [|done].
    case_decide; [by intros [= _ <-]|]. unfold bind at 1.
    destruct (check_can_be_printed_job_cases jid s) as [[b ->]| ->];
      [|by intros [= _ <-]].
    by run_monad.
  - unfold reprint_done_job, bind at 1, get_job.
    destruct (jobs s !! jid) as [job|]; [|done].
    case_decide; [by intros [= _ <-]|]. unfold bind at 1.
    destruct (check_can_be_printed_job_cases jid s) as [[b ->]| ->];
      [|by intros [= _ <-]].
    by run_monad.
  - unfold void, reorder_job_in_queue, bind at 1 2, get_job.
    destruct (jobs s !! jid) as [job|]; [|done].
    case_decide; [by intros [= _ <-]|].
    destruct after as [aid|].
    + unfold bind at 1. destruct (jobs s !! aid) as [after_job|]; [|done].
      case_decide; [by intros [= _ <-]|]. case_decide; [by intros [= _ <-]|].
      destruct (Job.priority_i job); [|by intros [= _ <-]].
      destruct (Job.priority_i after_job); [|by intros [= _ <-]].
      repeat case_decide; by run_monad.
    + run_monad. by destruct (highest_priority_job s); simpl; [|intros [= _ <-]].
  - unfold void, assign_job_to_printer, bind at 1 2, get_printer.
    destruct (printers s !! pos) as [printer|]; [|done].
    unfold bind at 1, get_job. destruct (jobs s !! jid) as [job|]; [|done].
    case_decide; [by intros [= _ <-]|].
    destruct (negb _); [by intros [= _ <-]|].
    case_decide; [by intros [= _ <-]|]. by run_monad.
Qed.

(** * Further properties of the code *)

(** ** The matcher *)

(** X1.  The outcome of the matcher is decided by the working printers
    other than the last one: when one of them fails an index check the
    call raises [IndexError], otherwise it returns the working printers
    that pass every index check, in the order of the query. *)
Theorem check_can_be_printed_job_printers_outcome s jid :
  check_can_be_printed_job_printers jid s =
    if rejected_before_last s jid
    then Raised IndexError s
    else Ok (isPrintable_printers s jid) s.
Proof.
  unfold rejected_before_last.
  destruct (existsb _ _) eqn:Hex.
  - apply existsb_exists in Hex as (p & Hin & Hrej).
    apply list_elem_of_In, elem_of_take in Hin as (j & Hj & Hlt).
    apply (check_can_be_printed_job_printers_Raised s jid j p); [lia|done|].
    by apply negb_true_iff.
  - apply check_can_be_printed_job_printers_Ok. intros j p Hlt Hj.
    destruct (survives s jid p) eqn:Hsurv; [done|].
    assert (existsb (λ p, negb (survives s jid p))
              (take (length (working_printers s) - 1) (working_printers s)) = true)
      as Hex'; [|congruence].
    apply existsb_exists. exists p. split; [|by rewrite Hsurv].
    apply list_elem_of_In, elem_of_take. exists j. split; [done|lia].
Qed.

Lemma filter_none {A} (P : A → Prop) `{∀ x, Decision (P x)} (l : list A) :
  (∀ x, x ∈ l → ¬ P x) → filter P l = [].
Proof.
  induction l as [|x l IH]; intros Hl; [done|].
  rewrite filter_cons_False by (apply Hl, list_elem_of_here).
  apply IH. intros y Hy. by apply Hl, list_elem_of_further.
Qed.

Lemma filter_all {A} (P : A → Prop) `{∀ x, Decision (P x)} (l : list A) :
  (∀ x, x ∈ l → P x) → filter P l = l.
Proof.
  induction l as [|x l IH]; intros Hl; [done|].
  rewrite filter_cons_True by (apply Hl, list_elem_of_here).
  f_equal. apply IH. intros y Hy. by apply Hl, list_elem_of_further.
Qed.

Lemma survives_unconstrained s jid p :
  (∀ r, r ∈ job_allowed_materials s → JobAllowedMaterial.idJob r ≠ jid) →
  (∀ r, r ∈ job_allowed_extruders s → JobAllowedExtruder.idJob r ≠ jid) →
  survives s jid p = true.
Proof.
  intros Hmat Hext. unfold survives. apply forallb_forall. intros e _.
  unfold passes_index.
  assert (get_job_allowed_materials s jid (PrinterExtruder.index e) = []) as ->.
  { unfold get_job_allowed_materials.
    rewrite filter_none; [done|]. intros r Hr [Hid _]. by apply (Hmat r). }
  assert (get_job_allowed_extruder_types s jid (PrinterExtruder.index e) = []) as ->.
  { unfold get_job_allowed_extruder_types.
    rewrite filter_none; [done|]. intros r Hr [Hid _]. by apply (Hext r). }
  done.
Qed.

(** X2.  A job without any allowed-material and allowed-extruder-type row
    is printable by every working printer: the matcher returns all of them
    and never raises, whatever extruders the printers have. *)
Theorem unconstrained_job_printable s jid :
  (∀ r, r ∈ job_allowed_materials s → JobAllowedMaterial.idJob r ≠ jid) →
  (∀ r, r ∈ job_allowed_extruders s → JobAllowedExtruder.idJob r ≠ jid) →
  check_can_be_printed_job_printers jid s = Ok (working_printers s) s ∧
  check_can_be_printed_job jid s = Ok (truthy (working_printers s)) s.
Proof.
  intros Hmat Hext.
  assert (Hall : isPrintable_printers s jid = working_printers s).
  { unfold isPrintable_printers. apply filter_all.
    intros p _. by apply survives_unconstrained. }
  assert (Hrun : check_can_be_printed_job_printers jid s = Ok (working_printers s) s).
  { rewrite <-Hall. apply check_can_be_printed_job_printers_Ok.
    intros. by apply survives_unconstrained. }
  split; [done|]. unfold check_can_be_printed_job, bind. by rewrite Hrun.
Qed.

Lemma unconstrained_job_printable_witness :
  check_can_be_printed_job_printers 1 unloaded_fleet = Ok [Printer.mk 2 1 None] unloaded_fleet ∧
  check_can_be_printed_job 1 unloaded_fleet = Ok true unloaded_fleet.
Proof.
  apply (unconstrained_job_printable unloaded_fleet 1);
    intros r Hr; vm_compute in Hr; by apply elem_of_nil in Hr.
Defined.

(** X3.  With at most one working printer the matcher never raises: it
    returns whether that printer passes every index check of the job, and
    [False] when no printer is working. *)
Theorem check_can_be_printed_job_single_printer s jid :
  (length (working_printers s) ≤ 1)%nat →
  check_can_be_printed_job jid s = Ok (isPrintable s jid) s.
Proof.
  intros Hlen. unfold check_can_be_printed_job, bind.
  rewrite check_can_be_printed_job_printers_Ok; [done|].
  intros j p Hj. lia.
Qed.

Lemma check_can_be_printed_job_single_printer_witness :
  check_can_be_printed_job 1 empty_fleet = Ok true empty_fleet.
Proof.
  apply (check_can_be_printed_job_single_printer empty_fleet 1).
  vm_compute. lia.
Defined.

(** ** Updating and moving a job through its states *)

(** X4.  [update_job] assigns the keys in the order they are written and
    stops at the first key that is not an attribute of [Job]: it raises
    [InvalidParameter] naming that key, the keys before it have been
    assigned to the job row and the keys after it have not.  With known
    keys only it returns with all of them assigned. *)
Theorem update_job_stops_at_unknown_key jid pre s :
  Forall known_key pre →
  (∃ s', update_job jid pre s = Ok tt s' ∧
         jobs s' = alter (λ j, foldl (λ j kw, kw_job kw j) j pre) jid (jobs s)) ∧
  (∀ key post,
     ∃ s', update_job jid (pre ++ Kw_other key :: post) s =
             Raised (InvalidParameter ("Invalid '" +:+ key +:+ "' parameter")) s' ∧
           jobs s' = alter (λ j, foldl (λ j kw, kw_job kw j) j pre) jid (jobs s)).
Proof.
  revert s. induction pre as [|kw pre IH]; intros s Hknown.
  - split; [|intros key post]; eexists; (split; [reflexivity|]); by rewrite alter_id.
  - apply Forall_cons in Hknown as [Hkw Hknown].
    destruct (IH (setattr jid kw s) Hknown) as [(s1 & Hrun1 & Hjobs1) Hraise].
    assert (Hstep : ∀ rest, update_job jid (kw :: rest) s =
                            update_job jid rest (setattr jid kw s))
      by (intros rest; by destruct kw).
    split.
    + exists s1. rewrite Hstep. split; [done|].
      by rewrite Hjobs1, setattr_jobs, alter_alter_eq.
    + intros key post. destruct (Hraise key post) as (s2 & Hrun2 & Hjobs2).
      exists s2. rewrite <-app_comm_cons, Hstep. split; [done|].
      by rewrite Hjobs2, setattr_jobs, alter_alter_eq.
Qed.

Lemma update_job_stops_at_unknown_key_witness :
  ∃ s', update_job 1 [Kw_priority_i (Some 7); Kw_other "colour"; Kw_retries 9] one_waiting =
          Raised (InvalidParameter "Invalid 'colour' parameter") s' ∧
        Job.priority_i <$> jobs s' !! 1 = Some (Some 7) ∧
        Job.retries <$> jobs s' !! 1 = Some 0.
Proof.
  destruct (update_job_stops_at_unknown_key 1 [Kw_priority_i (Some 7)] one_waiting)
    as [_ Hraise]; [repeat constructor|].
  destruct (Hraise "colour" [Kw_retries 9]) as (s' & Hrun & Hjobs).
  exists s'. split; [exact Hrun|]. rewrite Hjobs. split; reflexivity.
Defined.

(** X5.  Starting a Waiting job that can be printed, is held by a printer
    and has its file returns; the job row becomes Printing with no
    priority, [startedAt] the current time, [estimatedTimeLeft] the
    estimated printing time of the file and [interrupted] false; its other
    columns, the other jobs and all other tables are unchanged. *)
Theorem set_printing_job_Ok s jid job pos printer file now :
  jobs s !! jid = Some job →
  Job.idState job = Waiting →
  Job.canBePrinted job = true →
  assigned_printer s jid = Some (pos, printer) →
  files s !! Job.idFile job = Some file →
  ∃ s', set_printing_job jid now s = Ok tt s' ∧
        jobs s' =
          <[jid := Job.mk (Job.name job) Printing (Job.idFile job) (Job.idUser job) None
                     true (Job.retries job) (Job.progress job) (Some now)
                     (Job.finishedAt job) (File.estimatedPrintingTime file) false
                     (Job.succeed job)]> (jobs s) ∧
        printers s' = printers s ∧ job_extruders s' = job_extruders s ∧
        static_tables s' = static_tables s.
Proof.
  intros Hjob Hst Hcan Hprinter Hfile. unfold set_printing_job. run_monad.
  rewrite Hcan, (bool_decide_eq_false_2 (Job.idState job ≠ Waiting)) by (by intros []).
  simpl. run_monad. rewrite Hprinter. simpl. rewrite Hfile. simpl.
  eexists. split; [reflexivity|].
  rewrite ?setattr_jobs, ?setattr_job_extruders, ?setattr_static_tables,
    ?setattr_printers by done.
  split; [|done].
  rewrite !alter_alter_eq, (alter_alt_Some _ _ _ _ Hjob). f_equal.
  destruct job; simpl in *; by subst.
Qed.

Lemma set_printing_job_Ok_witness :
  ∃ s', set_printing_job 1 10 one_assigned = Ok tt s' ∧
        jobs s' = {[ 1 := printing_job ]} ∧
        printers s' = printers one_assigned.
Proof.
  destruct (set_printing_job_Ok one_assigned 1
              (Job.mk "part" Waiting 1 1 (Some 1) true 0 0 None None None false None)
              0%nat (Printer.mk 2 1 (Some 1)) (File.mk (Some 3600)) 10)
    as (s' & Hrun & Hjobs & Hprinters & _); [reflexivity..|].
  exists s'. split_and!; [exact Hrun| |exact Hprinters].
  rewrite Hjobs. reflexivity.
Defined.

(** X6.  A job that cannot be printed, or that no printer holds as its
    current job, is not started: [set_printing_job] raises
    [InvalidParameter] and leaves the store as it was. *)
Theorem set_printing_job_refused s jid job now :
  jobs s !! jid = Some job →
  Job.canBePrinted job = false ∨ assigned_printer s jid = None →
  ∃ msg, set_printing_job jid now s = Raised (InvalidParameter msg) s.
Proof.
  intros Hjob Hrefused. unfold set_printing_job. run_monad.
  destruct (negb (Job.canBePrinted job) || bool_decide (Job.idState job ≠ Waiting)) eqn:Hguard;
    run_monad; [eauto|].
  destruct Hrefused as [Hcan|Hnone].
  - by rewrite Hcan in Hguard.
  - rewrite Hnone. simpl. eauto.
Qed.

Lemma set_printing_job_refused_witness :
  ∃ msg, set_printing_job 1 10 one_waiting = Raised (InvalidParameter msg) one_waiting.
Proof.
  apply (set_printing_job_refused one_waiting 1
           (Job.mk "part" Waiting 1 1 (Some 1) true 0 0 None None None false None));
    [reflexivity|right; reflexivity].
Defined.

Lemma setattr_release_printers jid s :
  printers (setattr jid Kw_assigned_printer_None s) =
    match assigned_printer s jid with
    | Some (pos, printer) =>
        <[pos := Printer.mk (Printer.id printer) (Printer.idState printer) None]> (printers s)
    | None => printers s
    end.
Proof. unfold setattr. by destruct (assigned_printer s jid) as [[pos printer]|]. Qed.

Lemma assigned_printer_setattr jid kw s :
  kw ≠ Kw_assigned_printer_None →
  assigned_printer (setattr jid kw s) jid = assigned_printer s jid.
Proof. intros Hkw. unfold assigned_printer. by rewrite setattr_printers. Qed.

(** Once the only holder of a job has been released, no printer holds it. *)
Lemma released_not_held s jid :
  held_once s jid →
  list_find (λ p, Printer.idCurrentJob p = Some jid)
    (match assigned_printer s jid with
     | Some (pos, printer) =>
         <[pos := Printer.mk (Printer.id printer) (Printer.idState printer) None]> (printers s)
     | None => printers s
     end) = None.
Proof.
  intros Honce. destruct (assigned_printer s jid) as [[pos printer]|] eqn:Hfind; [|done].
  apply list_find_Some in Hfind as (Hpos & Hheld & _).
  apply list_find_None, Forall_forall. intros p Hp Hp_held.
  apply list_elem_of_lookup in Hp as [i Hi].
  destruct (decide (i = pos)) as [->|Hne].
  - rewrite list_lookup_insert_eq in Hi by (by apply lookup_lt_Some in Hpos).
    by simplify_eq.
  - rewrite list_lookup_insert_ne in Hi by done.
    by destruct Hne; apply (Honce i pos p printer).
Qed.

(** X7.  Marking a Finished job done returns; the job row becomes Done with
    the given success flag, and the printer that held the job has no
    current job any more.  When only that printer held it, no printer holds
    the job afterwards.  The other jobs, the other printers and the other
    tables are unchanged. *)
Theorem set_done_job_releases_printer s jid job succeed :
  jobs s !! jid = Some job →
  Job.idState job = Finished →
  ∃ s', set_done_job jid succeed s = Ok tt s' ∧
        jobs s' =
          <[jid := Job.mk (Job.name job) Done (Job.idFile job) (Job.idUser job)
                     (Job.priority_i job) (Job.canBePrinted job) (Job.retries job)
                     (Job.progress job) (Job.startedAt job) (Job.finishedAt job)
                     (Job.estimatedTimeLeft job) (Job.interrupted job)
                     (Some succeed)]> (jobs s) ∧
        printers s' =
          match assigned_printer s jid with
          | Some (pos, printer) =>
              <[pos := Printer.mk (Printer.id printer) (Printer.idState printer) None]>
                (printers s)
          | None => printers s
          end ∧
        (held_once s jid → assigned_printer s' jid = None) ∧
        job_extruders s' = job_extruders s ∧
        static_tables s' = static_tables s.
Proof.
  intros Hjob Hst. unfold set_done_job. run_monad.
  eexists. split; [reflexivity|].
  assert (Hprinters :
    printers (setattr jid Kw_assigned_printer_None
                (setattr jid (Kw_succeed succeed) (setattr jid (Kw_idState Done) s))) =
    match assigned_printer s jid with
    | Some (pos, printer) =>
        <[pos := Printer.mk (Printer.id printer) (Printer.idState printer) None]> (printers s)
    | None => printers s
    end).
  { rewrite setattr_release_printers, !assigned_printer_setattr by done.
    by rewrite !setattr_printers by done. }
  split_and!.
  - rewrite !setattr_jobs, !alter_alter_eq, (alter_alt_Some _ _ _ _ Hjob). done.
  - done.
  - intros Honce. unfold assigned_printer at 1. rewrite Hprinters.
    by apply released_not_held.
  - by rewrite !setattr_job_extruders.
  - by rewrite !setattr_static_tables.
Qed.

Lemma set_done_job_releases_printer_witness :
  ∃ s', set_done_job 1 true one_finished = Ok tt s' ∧
        Job.idState <$> jobs s' !! 1 = Some Done ∧
        Job.succeed <$> jobs s' !! 1 = Some (Some true) ∧
        printers s' = [Printer.mk 2 1 None] ∧
        assigned_printer s' 1 = None.
Proof.
  destruct (set_done_job_releases_printer one_finished 1
              (Job.mk "part" Finished 1 1 None true 0 100 (Some 10) (Some 20) (Some 0)
                      false None) true)
    as (s' & Hrun & Hjobs & Hprinters & Hfree & _); [reflexivity..|].
  exists s'. split_and!.
  - exact Hrun.
  - rewrite Hjobs. reflexivity.
  - rewrite Hjobs. reflexivity.
  - rewrite Hprinters. reflexivity.
  - apply Hfree. intros [|pos1] [|pos2] p1 p2 H1 H2 _ _; try done.
Defined.

(** A job that meets the checks of [set_printing_job] is started, and the
    printers are left as they were. *)
Lemma set_printing_job_runs s jid job pos printer file now :
  jobs s !! jid = Some job →
  Job.idState job = Waiting →
  Job.canBePrinted job = true →
  assigned_printer s jid = Some (pos, printer) →
  files s !! Job.idFile job = Some file →
  ∃ s', set_printing_job jid now s = Ok tt s' ∧
        Job.idState <$> jobs s' !! jid = Some Printing ∧
        Job.priority_i <$> jobs s' !! jid = Some None ∧
        printers s' = printers s.
Proof.
  intros Hjob Hst Hcan Hprinter Hfile. unfold set_printing_job. run_monad.
  rewrite Hcan, (bool_decide_eq_false_2 (Job.idState job ≠ Waiting)) by (by intros []).
  simpl. run_monad. rewrite Hprinter. simpl. rewrite Hfile. simpl.
  eexists. split; [reflexivity|].
  rewrite ?setattr_jobs, ?setattr_printers by done.
  rewrite !alter_alter_eq, (alter_alt_Some _ _ _ _ Hjob), lookup_insert_eq. done.
Qed.

(** X8.  Assigning a printable Waiting job to a printer without a current
    job and then starting the job both return: the check of
    [set_printing_job] for an assigned printer is met by the preceding
    [assign_job_to_printer].  The job ends Printing with no priority, and
    when no printer held the job before, the printer it was assigned to is
    its assigned printer. *)
Theorem assign_then_start s pos jid printer job file now :
  printers s !! pos = Some printer →
  jobs s !! jid = Some job →
  Job.idState job = Waiting →
  Job.canBePrinted job = true →
  Printer.idCurrentJob printer = None →
  files s !! Job.idFile job = Some file →
  ∃ s1 s2, assign_job_to_printer pos jid s = Ok pos s1 ∧
           set_printing_job jid now s1 = Ok tt s2 ∧
           Job.idState <$> jobs s2 !! jid = Some Printing ∧
           Job.priority_i <$> jobs s2 !! jid = Some None ∧
           (assigned_printer s jid = None →
            assigned_printer s2 jid =
              Some (pos, Printer.mk (Printer.id printer) (Printer.idState printer)
                                    (Some jid))).
Proof.
  intros Hprinter Hjob Hst Hcan Hfree Hfile.
  set (printer' := Printer.mk (Printer.id printer) (Printer.idState printer) (Some jid)).
  set (s1 := set_printers (<[pos := printer']> (printers s)) s).
  assert (Hassign : assign_job_to_printer pos jid s = Ok pos s1).
  { unfold assign_job_to_printer, bind at 1, get_printer. rewrite Hprinter.
    run_monad. rewrite Hcan. simpl. by run_monad. }
  assert (Hpos' : printers s1 !! pos = Some printer').
  { subst s1. simpl. rewrite list_lookup_insert_eq; [done|].
    by apply lookup_lt_Some in Hprinter. }
  destruct (list_find_elem_of (λ p, Printer.idCurrentJob p = Some jid) (printers s1) printer')
    as [[pos1 printer1] Hfind]; [by eapply list_elem_of_lookup_2|done|].
  destruct (set_printing_job_runs s1 jid job pos1 printer1 file now)
    as (s2 & Hstart & Hstate & Hprio & Hprinters); try done.
  exists s1, s2. split_and!; try done.
  intros Hnone. unfold assigned_printer. rewrite Hprinters.
  apply list_find_Some. split_and!; [done|done|].
  intros j p Hj Hlt Hheld. subst s1. simpl in Hj.
  rewrite list_lookup_insert_ne in Hj by lia.
  apply list_find_None in Hnone.
  by apply (proj1 (Forall_lookup _ _) Hnone j p Hj).
Qed.

Lemma assign_then_start_witness :
  ∃ s1 s2, assign_job_to_printer 0 1 one_waiting = Ok 0%nat s1 ∧
           set_printing_job 1 10 s1 = Ok tt s2 ∧
           Job.idState <$> jobs s2 !! 1 = Some Printing ∧
           assigned_printer s2 1 = Some (0%nat, Printer.mk 2 1 (Some 1)).
Proof.
  destruct (assign_then_start one_waiting 0 1 (Printer.mk 2 1 None)
              (Job.mk "part" Waiting 1 1 (Some 1) true 0 0 None None None false None)
              (File.mk (Some 3600)) 10)
    as (s1 & s2 & Hassign & Hstart & Hstate & _ & Hheld); [reflexivity..|].
  exists s1, s2. split_and!; [exact Hassign|exact Hstart|exact Hstate|].
  apply Hheld. reflexivity.
Defined.

(** ** Reordering the queue *)

Lemma highest_priority_job_le s p :
  has_priority (jobs s) p → ∃ m, highest_priority_job s = Some m ∧ m ≤ p.
Proof.
  intros Hp%elem_of_priorities. unfold highest_priority_job.
  destruct (priorities s) as [|q ps]; [by apply elem_of_nil in Hp|].
  eexists. split; [done|]. by apply foldr_min_le.
Qed.

(** X9.  Reordering a Waiting job that holds a priority to the head of the
    queue ([after] is [None]) returns the job; the job gets a priority
    strictly below every priority held before the call, its own included,
    and nothing else in the store changes. *)
Theorem reorder_to_head s jid job orig :
  jobs s !! jid = Some job →
  Job.idState job = Waiting →
  Job.priority_i job = Some orig →
  ∃ s' q, reorder_job_in_queue jid None s = Ok (Some jid) s' ∧
          jobs s' = <[jid := Job.set_priority_i (Some q) job]> (jobs s) ∧
          (∀ p, has_priority (jobs s) p → q < p) ∧
          printers s' = printers s ∧ job_extruders s' = job_extruders s ∧
          static_tables s' = static_tables s.
Proof.
  intros Hjob Hst Horig.
  destruct (highest_priority_job_le s orig) as (m & Hm & _); [red; eauto|].
  unfold reorder_job_in_queue. run_monad. rewrite Hm. simpl.
  exists (alter_job (Job.set_priority_i (Some (m - 1))) jid s), (m - 1).
  split_and!; try done.
  - simpl. by rewrite (alter_alt_Some _ _ _ _ Hjob).
  - intros p Hp. destruct (highest_priority_job_le s p Hp) as (m' & Hm' & Hle).
    simplify_eq. lia.
Qed.

Lemma reorder_to_head_witness :
  ∃ s' q, reorder_job_in_queue 4 None dense_queue = Ok (Some 4) s' ∧
          jobs s' !! 4 = Some (waiting_job q) ∧ q < 1.
Proof.
  destruct (reorder_to_head dense_queue 4 (waiting_job 4) 4)
    as (s' & q & Hrun & Hjobs & Hbelow & _); [reflexivity..|].
  exists s', q. split_and!.
  - exact Hrun.
  - rewrite Hjobs. reflexivity.
  - apply Hbelow. exists 1, (waiting_job 1). split; reflexivity.
Defined.

Lemma dense_queue_unique : unique_waiting (jobs dense_queue).
Proof.
  intros k1 k2 j1 j2 p H1 H2 _ _ Hp1 Hp2.
  apply elem_of_map_to_list in H1, H2. vm_compute in H1, H2.
  repeat (apply elem_of_cons in H1 as [H1|H1]); try (by apply elem_of_nil in H1);
    repeat (apply elem_of_cons in H2 as [H2|H2]); try (by apply elem_of_nil in H2);
    simplify_eq; try done; vm_compute in Hp2; by simplify_eq.
Qed.

(** X10.  In a queue without duplicate priorities, reordering a Waiting job
    behind a different Waiting job of another priority puts it immediately
    behind that job: its new priority is the new priority of [after] plus
    one, and every other Waiting job stays on the side of [after] it was
    on, before [after] or behind the moved job. *)
Theorem reorder_job_in_queue_immediately_behind s jid aid job after_job orig target :
  unique_waiting (jobs s) →
  jobs s !! jid = Some job → jobs s !! aid = Some after_job → jid ≠ aid →
  Job.idState job = Waiting → Job.idState after_job = Waiting →
  Job.priority_i job = Some orig → Job.priority_i after_job = Some target →
  ∃ s' pa, reorder_job_in_queue jid (Some aid) s = Ok None s' ∧
    Job.priority_i <$> jobs s' !! aid = Some (Some pa) ∧
    Job.priority_i <$> jobs s' !! jid = Some (Some (pa + 1)) ∧
    ∀ k j p, k ≠ jid → k ≠ aid → jobs s !! k = Some j →
      Job.idState j = Waiting → Job.priority_i j = Some p →
      ∃ p', Job.priority_i <$> jobs s' !! k = Some (Some p') ∧
            (p < target → p' < pa) ∧ (target < p → pa + 1 < p').
Proof.
  intros Huniq Hjob Hafter Hne Hw Hwa Horig Htarget.
  assert (orig ≠ target) as Hdiff
    by (intros ->; by apply Hne, (Huniq jid aid job after_job target)).
  rewrite (reorder_job_in_queue_behind s jid aid job after_job orig target) by done.
  destruct (decide (target < orig)) as [Hlt|Hnlt];
    [|rewrite decide_True by lia]; eexists; eexists; (split; [reflexivity|]); simpl.
  - split_and!.
    + rewrite lookup_alter_ne, lookup_shift_job, Hafter by done. simpl.
      rewrite shift_job_priority_i, Htarget. simpl.
      rewrite (bool_decide_eq_false_2 (target > target)) by lia. done.
    + rewrite lookup_alter_eq, lookup_shift_job, Hjob. done.
    + intros k j p Hk Hka Hj Hwj Hp.
      assert (p ≠ orig) by (intros ->; by apply Hk, (Huniq k jid j job orig)).
      assert (p ≠ target) by (intros ->; by apply Hka, (Huniq k aid j after_job target)).
      rewrite lookup_alter_ne, lookup_shift_job, Hj by done. simpl.
      rewrite shift_job_priority_i, Hp. simpl. eexists. split; [done|].
      repeat case_bool_decide; simpl; lia.
  - split_and!.
    + rewrite lookup_alter_ne, lookup_shift_job, Hafter by done. simpl.
      rewrite shift_job_priority_i, Htarget. simpl.
      rewrite (bool_decide_eq_true_2 (target ≤ target)),
        (bool_decide_eq_true_2 (target > orig)) by lia. done.
    + rewrite lookup_alter_eq, lookup_shift_job, Hjob. simpl. do 3 f_equal. lia.
    + intros k j p Hk Hka Hj Hwj Hp.
      assert (p ≠ orig) by (intros ->; by apply Hk, (Huniq k jid j job orig)).
      assert (p ≠ target) by (intros ->; by apply Hka, (Huniq k aid j after_job target)).
      rewrite lookup_alter_ne, lookup_shift_job, Hj by done. simpl.
      rewrite shift_job_priority_i, Hp. simpl. eexists. split; [done|].
      repeat case_bool_decide; simpl; lia.
Qed.

Lemma reorder_job_in_queue_immediately_behind_witness :
  ∃ s' pa, reorder_job_in_queue 2 (Some 4) dense_queue = Ok None s' ∧
           Job.priority_i <$> jobs s' !! 4 = Some (Some pa) ∧
           Job.priority_i <$> jobs s' !! 2 = Some (Some (pa + 1)) ∧
           (∃ p', Job.priority_i <$> jobs s' !! 5 = Some (Some p') ∧ pa + 1 < p').
Proof.
  destruct (reorder_job_in_queue_immediately_behind dense_queue 2 4
              (waiting_job 2) (waiting_job 4) 2 4)
    as (s' & pa & Hrun & Hafter & Hjob & Hothers);
    [exact dense_queue_unique|reflexivity|reflexivity|lia|reflexivity..|].
  exists s', pa. split_and!; [exact Hrun|exact Hafter|exact Hjob|].
  destruct (Hothers 5 (waiting_job 5) 5) as (p' & Hp' & _ & Hbehind);
    [lia|lia|reflexivity..|].
  exists p'. split; [exact Hp'|]. apply Hbehind. lia.
Defined.

(** X11.  In a queue without duplicate priorities, reordering a job behind
    another one keeps the relative order of all the other Waiting jobs. *)
Theorem reorder_job_in_queue_keeps_order s jid aid job after_job orig target :
  unique_waiting (jobs s) →
  jobs s !! jid = Some job → jobs s !! aid = Some after_job → jid ≠ aid →
  Job.idState job = Waiting → Job.idState after_job = Waiting →
  Job.priority_i job = Some orig → Job.priority_i after_job = Some target →
  ∃ s', reorder_job_in_queue jid (Some aid) s = Ok None s' ∧
    ∀ k1 k2 j1 j2 p1 p2, k1 ≠ jid → k2 ≠ jid →
      jobs s !! k1 = Some j1 → jobs s !! k2 = Some j2 →
      Job.idState j1 = Waiting → Job.idState j2 = Waiting →
      Job.priority_i j1 = Some p1 → Job.priority_i j2 = Some p2 →
      p1 < p2 →
      ∃ p1' p2', Job.priority_i <$> jobs s' !! k1 = Some (Some p1') ∧
                 Job.priority_i <$> jobs s' !! k2 = Some (Some p2') ∧
                 p1' < p2'.
Proof.
  intros Huniq Hjob Hafter Hne Hw Hwa Horig Htarget.
  rewrite (reorder_job_in_queue_behind s jid aid job after_job orig target) by done.
  destruct (decide (target < orig)) as [Hlt|Hnlt];
    [|destruct (decide (target > orig)) as [Hgt|Hngt]];
    eexists; (split; [reflexivity|]); simpl;
    intros k1 k2 j1 j2 p1 p2 Hk1 Hk2 Hj1 Hj2 Hw1 Hw2 Hp1 Hp2 Hlt12.
  1,2: assert (p1 ≠ orig) by (intros ->; by apply Hk1, (Huniq k1 jid j1 job orig));
       assert (p2 ≠ orig) by (intros ->; by apply Hk2, (Huniq k2 jid j2 job orig));
       rewrite !lookup_alter_ne, !lookup_shift_job, Hj1, Hj2 by done; simpl;
       rewrite !shift_job_priority_i, Hp1, Hp2; simpl;
       eexists; eexists; (split; [done|]); (split; [done|]);
       repeat case_bool_decide; simpl; lia.
  rewrite Hj1, Hj2. simpl. rewrite Hp1, Hp2. eauto.
Qed.

Lemma reorder_job_in_queue_keeps_order_witness :
  ∃ s', reorder_job_in_queue 2 (Some 4) dense_queue = Ok None s' ∧
        ∃ p1' p2', Job.priority_i <$> jobs s' !! 3 = Some (Some p1') ∧
                   Job.priority_i <$> jobs s' !! 5 = Some (Some p2') ∧
                   p1' < p2'.
Proof.
  destruct (reorder_job_in_queue_keeps_order dense_queue 2 4
              (waiting_job 2) (waiting_job 4) 2 4)
    as (s' & Hrun & Horder);
    [exact dense_queue_unique|reflexivity|reflexivity|lia|reflexivity..|].
  exists s'. split; [exact Hrun|].
  apply (Horder 3 5 (waiting_job 3) (waiting_job 5) 3 5); [lia|lia|reflexivity..|lia].
Defined.

(** ** The head of the queue *)

#[global] Instance priority_le_total : Total priority_le.
Proof.
  intros a b. unfold priority_le.
  destruct (Job.priority_i a.2), (Job.priority_i b.2); try tauto. lia.
Qed.

#[global] Instance priority_le_trans : Transitive priority_le.
Proof.
  intros a b c. unfold priority_le.
  destruct (Job.priority_i a.2), (Job.priority_i b.2), (Job.priority_i c.2); try tauto. lia.
Qed.

Lemma elem_of_printable_waiting s k j :
  (k, j) ∈ printable_waiting s ↔
  jobs s !! k = Some j ∧ Job.idState j = Waiting ∧ Job.canBePrinted j = true.
Proof.
  unfold printable_waiting. rewrite list_elem_of_filter, elem_of_map_to_list. simpl. tauto.
Qed.

Lemma get_first_job_in_queue_Some s k j :
  get_first_job_in_queue s = Some (k, j) →
  (k, j) ∈ printable_waiting s ∧ ∀ kj', kj' ∈ printable_waiting s → priority_le (k, j) kj'.
Proof.
  unfold get_first_job_in_queue. intros (l & Hsorted)%head_Some.
  pose proof (StronglySorted_merge_sort priority_le (printable_waiting s)) as Hss.
  pose proof (merge_sort_Permutation priority_le (printable_waiting s)) as Hperm.
  rewrite Hsorted in Hss, Hperm. apply StronglySorted_inv in Hss as [_ Hall].
  split.
  - rewrite <-Hperm. apply list_elem_of_here.
  - intros kj' Hin. rewrite <-Hperm in Hin. apply elem_of_cons in Hin as [->|Hin].
    + destruct (total priority_le (k, j) (k, j)); done.
    + by apply (proj1 (Forall_forall _ _) Hall).
Qed.

Lemma get_first_job_in_queue_None s :
  get_first_job_in_queue s = None ↔ printable_waiting s = [].
Proof.
  unfold get_first_job_in_queue. rewrite head_None.
  pose proof (merge_sort_Permutation priority_le (printable_waiting s)) as Hperm.
  split; intros Hnil.
  - rewrite Hnil in Hperm. symmetry in Hperm. by apply Permutation_nil_r in Hperm.
  - apply Permutation_nil_r. by rewrite Hperm, Hnil.
Qed.

(** X12.  [get_first_job_in_queue] returns a Waiting job that can be
    printed and whose priority is not above that of any other such job; it
    returns [None] exactly when no Waiting job can be printed, that is when
    [count_jobs_in_queue(only_can_be_printed=True)] is zero. *)
Theorem get_first_job_in_queue_minimal s :
  match get_first_job_in_queue s with
  | Some (k, j) =>
      jobs s !! k = Some j ∧ Job.idState j = Waiting ∧ Job.canBePrinted j = true ∧
      ∀ k' j' p p', jobs s !! k' = Some j' →
        Job.idState j' = Waiting → Job.canBePrinted j' = true →
        Job.priority_i j = Some p → Job.priority_i j' = Some p' → p ≤ p'
  | None =>
      ∀ k j, jobs s !! k = Some j → Job.idState j = Waiting → Job.canBePrinted j = false
  end ∧
  (get_first_job_in_queue s = None ↔ count_jobs_in_queue s true = 0%nat).
Proof.
  split.
  - destruct (get_first_job_in_queue s) as [[k j]|] eqn:Hfirst.
    + apply get_first_job_in_queue_Some in Hfirst as [Hin Hmin].
      apply elem_of_printable_waiting in Hin as (Hj & Hw & Hcan).
      split_and!; try done.
      intros k' j' p p' Hj' Hw' Hcan' Hp Hp'.
      specialize (Hmin (k', j')). unfold priority_le in Hmin. simpl in Hmin.
      rewrite Hp, Hp' in Hmin. apply Hmin. by apply elem_of_printable_waiting.
    + apply get_first_job_in_queue_None in Hfirst. intros k j Hj Hw.
      destruct (Job.canBePrinted j) eqn:Hcan; [|done].
      assert ((k, j) ∈ printable_waiting s) as Hin by (by apply elem_of_printable_waiting).
      rewrite Hfirst in Hin. by apply elem_of_nil in Hin.
  - rewrite get_first_job_in_queue_None. simpl. split.
    + by intros ->.
    + apply nil_length_inv.
Qed.

(** ** Entering the queue *)

Lemma enqueue_created_job_Ok_inv jid s s' :
  enqueue_created_job jid s = Ok tt s' →
  ∃ job b, jobs s !! jid = Some job ∧ Job.idState job = Created ∧
           check_can_be_printed_job jid s = Ok b s.
Proof.
  unfold enqueue_created_job, bind at 1, get_job.
  destruct (jobs s !! jid) as [job|]; [|done].
  case_decide as Hst; [done|]. unfold bind at 1.
  destruct (check_can_be_printed_job_cases jid s) as [[b Hb]|Hb]; rewrite Hb; [|done].
  intros _. exists job, b. split_and!; try done.
  all: destruct (Job.idState job); naive_solver.
Qed.

Lemma reprint_done_job_Ok_inv jid s s' :
  reprint_done_job jid s = Ok tt s' →
  ∃ job b, jobs s !! jid = Some job ∧ Job.idState job = Done ∧
           check_can_be_printed_job jid s = Ok b s.
Proof.
  unfold reprint_done_job, bind at 1, get_job.
  destruct (jobs s !! jid) as [job|]; [|done].
  case_decide as Hst; [done|]. unfold bind at 1.
  destruct (check_can_be_printed_job_cases jid s) as [[b Hb]|Hb]; rewrite Hb; [|done].
  intros _. exists job, b. split_and!; try done.
  all: destruct (Job.idState job); naive_solver.
Qed.

Lemma enqueue_printing_or_finished_job_Ok_inv jid max_priority s s' :
  enqueue_printing_or_finished_job jid max_priority s = Ok tt s' →
  ∃ job b, jobs s !! jid = Some job ∧
           (Job.idState job = Printing ∨ Job.idState job = Finished) ∧
           check_can_be_printed_job jid s = Ok b s.
Proof.
  unfold enqueue_printing_or_finished_job, bind at 1, get_job.
  destruct (jobs s !! jid) as [job|]; [|done].
  case_decide as Hst; [done|]. unfold bind at 1.
  destruct (check_can_be_printed_job_cases jid s) as [[b Hb]|Hb]; rewrite Hb; [|done].
  intros _. exists job, b. split_and!; try done.
  all: destruct (Job.idState job); naive_solver.
Qed.





(** ** Refreshing the printable flag *)

Lemma matcher_outcome s jid :
  check_can_be_printed_job jid s =
    if rejected_before_last s jid then Raised IndexError s
    else Ok (isPrintable s jid) s.
Proof.
  destruct (rejected_before_last s jid) eqn:Hex.
  - destruct (check_can_be_printed_job_cases jid s) as [[b Hb]|Hb]; [|done].
    unfold rejected_before_last in Hex.
    apply existsb_exists in Hex as (p & Hin & Hrej).
    apply list_elem_of_In, elem_of_take in Hin as (j & Hj & Hlt).
    unfold check_can_be_printed_job, bind in Hb.
    rewrite (check_can_be_printed_job_printers_Raised s jid j p) in Hb; [done|lia|done|].
    by apply negb_true_iff.
  - destruct (check_can_be_printed_job_cases jid s) as [[b Hb]|Hb].
    + by destruct (check_can_be_printed_job_sound _ _ _ _ Hb) as [_ <-].
    + unfold check_can_be_printed_job, bind in Hb.
      rewrite check_can_be_printed_job_printers_Ok in Hb; [done|].
      intros j p Hlt Hj. destruct (survives s jid p) eqn:Hsurv; [done|].
      assert (rejected_before_last s jid = true) as Hex'; [|congruence].
      apply existsb_exists. exists p. split; [|by rewrite Hsurv].
      apply list_elem_of_In, elem_of_take. exists j. split; [done|lia].
Qed.

(** The matcher reads the printers and the constraint tables only. *)
Lemma matcher_frame s1 s jid :
  printers s1 = printers s → static_tables s1 = static_tables s →
  rejected_before_last s1 jid = rejected_before_last s jid ∧
  isPrintable s1 jid = isPrintable s jid.
Proof.
  unfold static_tables. intros Hpr [= Hf Hps Hpe Hjam Hjae].
  unfold rejected_before_last, isPrintable, isPrintable_printers, working_printers,
    survives, passes_index, get_job_allowed_materials, get_job_allowed_extruder_types.
  by rewrite Hpr, Hps, Hpe, Hjam, Hjae.
Qed.

Lemma elem_of_get_jobs_idState s st k :
  k ∈ get_jobs_idState s st ↔ ∃ j, jobs s !! k = Some j ∧ Job.idState j = st.
Proof.
  unfold get_jobs_idState. rewrite list_elem_of_fmap. split.
  - intros ([k' j] & -> & Hin). rewrite merge_sort_Permutation in Hin.
    apply list_elem_of_filter in Hin as [Hst Hin]. apply elem_of_map_to_list in Hin. eauto.
  - intros (j & Hj & Hst). exists (k, j). split; [done|].
    rewrite merge_sort_Permutation. apply list_elem_of_filter. split; [done|].
    by apply elem_of_map_to_list.
Qed.

(** A loop whose body sets the flag of the job it visits to [v]. *)
Lemma for_each_job_flags (body : Z → M unit) (v : Z → bool) s0 ids s :
  (∀ k s1, k ∈ ids → printers s1 = printers s0 → static_tables s1 = static_tables s0 →
           body k s1 = Ok tt (setattr k (Kw_canBePrinted (v k)) s1)) →
  printers s = printers s0 → static_tables s = static_tables s0 →
  ∃ s', for_each_job body ids s = Ok tt s' ∧
        (∀ k, k ∈ ids → jobs s' !! k = Job.set_canBePrinted (v k) <$> jobs s !! k) ∧
        (∀ k, k ∉ ids → jobs s' !! k = jobs s !! k) ∧
        printers s' = printers s ∧ job_extruders s' = job_extruders s ∧
        static_tables s' = static_tables s.
Proof.
  revert s. induction ids as [|k1 ids IH]; intros s Hbody Hpr Hst.
  - exists s. split_and!; try done. by intros k Hin%elem_of_nil.
  - simpl. unfold bind at 1. rewrite Hbody by (done || apply list_elem_of_here).
    destruct (IH (setattr k1 (Kw_canBePrinted (v k1)) s))
      as (s' & Hrun & Hin & Hnin & Hpr' & Hje & Hst').
    + intros k s1 Hk. apply Hbody. by apply list_elem_of_further.
    + by rewrite setattr_printers.
    + by rewrite setattr_static_tables.
    + exists s'. rewrite Hrun, Hpr', Hje, Hst'.
      rewrite setattr_printers, setattr_job_extruders, setattr_static_tables by done.
      split_and!; try done.
      * intros k Hk. destruct (decide (k ∈ ids)) as [Hk'|Hk'].
        -- rewrite Hin, setattr_jobs by done. destruct (decide (k = k1)) as [->|Hne].
           ++ rewrite lookup_alter_eq. by destruct (jobs s !! k1).
           ++ by rewrite lookup_alter_ne.
        -- apply elem_of_cons in Hk as [->|Hk]; [|done].
           by rewrite Hnin, setattr_jobs, lookup_alter_eq.
      * intros k Hk. apply not_elem_of_cons in Hk as [Hne Hk].
        by rewrite Hnin, setattr_jobs, lookup_alter_ne.
Qed.

(** X15.  [init_jobs_can_be_printed] always returns; it clears the
    [canBePrinted] flag of every Waiting job and changes nothing else, so
    the queue has no head afterwards and the count of printable jobs in the
    queue is zero. *)
Theorem init_jobs_can_be_printed_clears s :
  ∃ s', init_jobs_can_be_printed s = Ok tt s' ∧
        jobs s' = (λ j, if decide (Job.idState j = Waiting)
                        then Job.set_canBePrinted false j else j) <$> jobs s ∧
        printers s' = printers s ∧ job_extruders s' = job_extruders s ∧
        static_tables s' = static_tables s ∧
        get_first_job_in_queue s' = None ∧
        count_jobs_in_queue s' true = 0%nat.
Proof.
  destruct (for_each_job_flags (λ jid, update_job jid [Kw_canBePrinted false])
              (λ _, false) s (get_jobs_idState s Waiting) s)
    as (s' & Hrun & Hin & Hnin & Hpr & Hje & Hst); try done.
  assert (Hmap : jobs s' = (λ j, if decide (Job.idState j = Waiting)
                                 then Job.set_canBePrinted false j else j) <$> jobs s).
  { apply map_eq. intros k. rewrite lookup_fmap.
    destruct (jobs s !! k) as [j|] eqn:Hj; simpl.
    - destruct (decide (Job.idState j = Waiting)) as [Hw|Hw].
      + rewrite Hin, Hj; [done|]. apply elem_of_get_jobs_idState. eauto.
      + rewrite Hnin, Hj; [done|].
        intros (j' & Hj' & Hw')%elem_of_get_jobs_idState. congruence.
    - rewrite Hnin, Hj; [done|].
      intros (j' & Hj' & Hw')%elem_of_get_jobs_idState. congruence. }
  assert (Hnil : printable_waiting s' = []).
  { apply filter_none. intros [k j'] Hkj [Hw Hcan]. simpl in *.
    apply elem_of_map_to_list in Hkj. rewrite Hmap, lookup_fmap in Hkj.
    destruct (jobs s !! k) as [j|]; simpl in Hkj; [|done]. injection Hkj as <-.
    destruct (decide (Job.idState j = Waiting)); simpl in *; congruence. }
  exists s'. split_and!; try done.
  - by apply get_first_job_in_queue_None.
  - simpl. by rewrite Hnil.
Qed.



Lemma for_each_job_index_error (body : Z → M unit) (bad v : Z → bool) s0 ids s :
  (∀ k s1, printers s1 = printers s0 → static_tables s1 = static_tables s0 →
           body k s1 = if bad k then Raised IndexError s1
                       else Ok tt (setattr k (Kw_canBePrinted (v k)) s1)) →
  printers s = printers s0 → static_tables s = static_tables s0 →
  (∃ k, k ∈ ids ∧ bad k = true) →
  ∃ s', for_each_job body ids s = Raised IndexError s' ∧
        (∀ k, bad k = true → jobs s' !! k = jobs s !! k) ∧
        printers s' = printers s ∧ job_extruders s' = job_extruders s ∧
        static_tables s' = static_tables s.
Proof.
  intros Hbody. revert s. induction ids as [|k1 ids IH]; intros s Hpr Hst (k & Hin & Hbad).
  - by apply elem_of_nil in Hin.
  - simpl. unfold bind at 1. rewrite Hbody by done.
    destruct (bad k1) eqn:Hk1.
    + exists s. by split_and!.
    + destruct (IH (setattr k1 (Kw_canBePrinted (v k1)) s))
        as (s' & Hrun & Hjobs & Hpr' & Hje & Hst').
      * by rewrite setattr_printers.
      * by rewrite setattr_static_tables.
      * exists k. split; [|done]. apply elem_of_cons in Hin as [->|Hin]; [congruence|done].
      * exists s'. rewrite Hrun, Hpr', Hje, Hst'.
        rewrite setattr_printers, setattr_job_extruders, setattr_static_tables by done.
        split_and!; try done. intros k' Hbad'. rewrite Hjobs, setattr_jobs by done.
        rewrite lookup_alter_ne; [done|]. congruence.
Qed.

(** X17.  When some Waiting job has a working printer other than the last
    one rejected, [update_can_be_printed_jobs] raises [IndexError]; the flag
    of that job is left as it was, as are the printers and the other
    tables. *)
Theorem update_can_be_printed_jobs_index_error s k j :
  jobs s !! k = Some j → Job.idState j = Waiting →
  rejected_before_last s k = true →
  ∃ s', update_can_be_printed_jobs s = Raised IndexError s' ∧
        jobs s' !! k = Some j ∧
        printers s' = printers s ∧ job_extruders s' = job_extruders s ∧
        static_tables s' = static_tables s.
Proof.
  intros Hj Hw Hbad.
  destruct (for_each_job_index_error
              (λ jid, let* can_be_printed := check_can_be_printed_job jid in
                      update_job jid [Kw_canBePrinted can_be_printed])
              (rejected_before_last s) (isPrintable s) s (get_jobs_idState s Waiting) s)
    as (s' & Hrun & Hjobs & Hpr & Hje & Hst); try done.
  { intros k' s1 Hpr1 Hst1. unfold bind at 1. rewrite matcher_outcome.
    destruct (matcher_frame s1 s k' Hpr1 Hst1) as [-> ->].
    by destruct (rejected_before_last s k'). }
  { exists k. split; [|done]. apply elem_of_get_jobs_idState. eauto. }
  exists s'. split_and!; try done. by rewrite Hjobs.
Qed.

Lemma update_can_be_printed_jobs_index_error_witness :
  ∃ s', update_can_be_printed_jobs (two_printers_with (waiting_job 1) None)
          = Raised IndexError s' ∧
        jobs s' !! 1 = Some (waiting_job 1) ∧
        printers s' = printers (two_printers_with (waiting_job 1) None) ∧
        job_extruders s' = job_extruders (two_printers_with (waiting_job 1) None) ∧
        static_tables s' = static_tables (two_printers_with (waiting_job 1) None).
Proof.
  apply (update_can_be_printed_jobs_index_error
           (two_printers_with (waiting_job 1) None) 1 (waiting_job 1));
    reflexivity.
Defined.

(** ** Printers going offline *)

Lemma for_each_printer_offline (body : nat → M unit) offline positions s :
  (∀ pos s1 p, printers s1 !! pos = Some p →
     body pos s1 =
       Ok tt (set_printers (<[pos := set_printer_idState offline p]> (printers s1)) s1)) →
  (∀ i, i ∈ positions → (i < length (printers s))%nat) →
  ∃ s', for_each_printer body positions s = Ok tt s' ∧
        (∀ i, i ∈ positions →
              printers s' !! i = set_printer_idState offline <$> printers s !! i) ∧
        (∀ i, i ∉ positions → printers s' !! i = printers s !! i) ∧
        jobs s' = jobs s ∧ job_extruders s' = job_extruders s ∧
        static_tables s' = static_tables s.
Proof.
  intros Hbody. revert s. induction positions as [|i1 positions IH]; intros s Hlt.
  - exists s. split_and!; try done. by intros i Hin%elem_of_nil.
  - destruct (lookup_lt_is_Some_2 (printers s) i1) as [p1 Hp1];
      [apply Hlt, list_elem_of_here|].
    simpl. unfold bind at 1. rewrite (Hbody i1 s p1 Hp1).
    set (s1 := set_printers _ s).
    assert (Hlen : length (printers s1) = length (printers s))
      by (unfold s1; simpl; by rewrite length_insert).
    destruct (IH s1) as (s' & Hrun & Hin & Hnin & Hjobs & Hje & Hst).
    { intros i Hi. rewrite Hlen. by apply Hlt, list_elem_of_further. }
    exists s'. rewrite Hrun, Hjobs, Hje, Hst. split_and!; try done.
    + intros i Hi. destruct (decide (i ∈ positions)) as [Hi'|Hi'].
      * rewrite Hin by done. unfold s1. simpl.
        destruct (decide (i = i1)) as [->|Hne].
        -- rewrite list_lookup_insert_eq, Hp1; [done|]. by apply lookup_lt_Some in Hp1.
        -- by rewrite list_lookup_insert_ne.
      * apply elem_of_cons in Hi as [->|Hi]; [|done].
        rewrite Hnin by done. unfold s1. simpl.
        rewrite list_lookup_insert_eq, Hp1; [done|]. by apply lookup_lt_Some in Hp1.
    + intros i Hi. apply not_elem_of_cons in Hi as [Hne Hi].
      rewrite Hnin by done. unfold s1. simpl. by rewrite list_lookup_insert_ne.
Qed.

(** X18.  [init_printers_state] returns with every printer in the Offline
    state and nothing else changed.  When the Offline state is not an
    operational one, no printer is working afterwards and the matcher
    returns [False] for every job. *)
Theorem init_printers_state_offline offline s :
  printer_states s !! offline ≠ Some true →
  ∃ s', init_printers_state offline s = Ok tt s' ∧
        printers s' = set_printer_idState offline <$> printers s ∧
        jobs s' = jobs s ∧ job_extruders s' = job_extruders s ∧
        static_tables s' = static_tables s ∧
        working_printers s' = [] ∧
        ∀ jid, check_can_be_printed_job jid s' = Ok false s'.
Proof.
  intros Hoff.
  destruct (for_each_printer_offline (λ pos, update_printer_idState pos offline) offline
              (seq 0 (length (printers s))) s)
    as (s' & Hrun & Hin & Hnin & Hjobs & Hje & Hst).
  { intros pos s1 p Hp. unfold update_printer_idState, bind, get_printer. by rewrite Hp. }
  { intros i Hi%elem_of_seq. lia. }
  assert (Hpr : printers s' = set_printer_idState offline <$> printers s).
  { apply list_eq. intros i. rewrite list_lookup_fmap.
    destruct (decide (i < length (printers s))%nat) as [Hlt|Hge].
    - apply Hin, elem_of_seq. lia.
    - rewrite Hnin by (intros Hi%elem_of_seq; lia).
      rewrite lookup_ge_None_2 by lia. done. }
  assert (Hwp : working_printers s' = []).
  { unfold working_printers. apply filter_none. intros p Hp.
    rewrite Hpr in Hp. apply list_elem_of_fmap in Hp as (p0 & -> & _). simpl.
    unfold static_tables in Hst. injection Hst as _ -> _ _ _. done. }
  exists s'. split_and!; try done.
  intros jid. unfold check_can_be_printed_job, bind, check_can_be_printed_job_printers.
  by rewrite Hwp.
Qed.

Lemma init_printers_state_offline_witness :
  ∃ s', init_printers_state 2 one_waiting = Ok tt s' ∧
        working_printers s' = [] ∧
        ∀ jid, check_can_be_printed_job jid s' = Ok false s'.
Proof.
  destruct (init_printers_state_offline 2 one_waiting)
    as (s' & Hrun & _ & _ & _ & _ & Hwp & Hchk).
  - vm_compute. discriminate.
  - exists s'. split_and!; [exact Hrun|exact Hwp|exact Hchk].
Defined.

(** ** The constraint tables *)

(** X19.  The two directions of the constraint queries agree: a job is
    among the jobs returned for a material (an extruder type) exactly when
    the material (the extruder type) is among those returned for the job,
    for the same optional extruder index. *)
Theorem constraint_queries_inverse s jid v extruder_index :
  (jid ∈ get_jobs_by_material s v extruder_index ↔
   v ∈ get_job_allowed_materials_of s jid extruder_index) ∧
  (jid ∈ get_jobs_by_extruder_type s v extruder_index ↔
   v ∈ get_job_allowed_extruder_types_of s jid extruder_index).
Proof.
  unfold get_jobs_by_material, get_job_allowed_materials_of,
    get_jobs_by_extruder_type, get_job_allowed_extruder_types_of.
  rewrite !list_elem_of_fmap. split; split.
  - intros (r & -> & [[<- Hi] Hin]%list_elem_of_filter).
    exists r. split; [done|]. by apply list_elem_of_filter.
  - intros (r & -> & [[<- Hi] Hin]%list_elem_of_filter).
    exists r. split; [done|]. by apply list_elem_of_filter.
  - intros (r & -> & [[<- Hi] Hin]%list_elem_of_filter).
    exists r. split; [done|]. by apply list_elem_of_filter.
  - intros (r & -> & [[<- Hi] Hin]%list_elem_of_filter).
    exists r. split; [done|]. by apply list_elem_of_filter.
Qed.

Lemma set_job_allowed_materials_app r rows s :
  set_job_allowed_materials
    (job_allowed_materials (set_job_allowed_materials (job_allowed_materials s ++ [r]) s)
       ++ rows)
    (set_job_allowed_materials (job_allowed_materials s ++ [r]) s) =
  set_job_allowed_materials (job_allowed_materials s ++ r :: rows) s.
Proof. unfold set_job_allowed_materials. simpl. by rewrite <-app_assoc. Qed.

Lemma insert_job_allowed_materials_loop_Ok jid args created s :
  (∀ i, NotMaterial i ∉ args) →
  insert_job_allowed_materials_loop jid args created s =
    Ok (created ++ material_rows jid args)
       (set_job_allowed_materials (job_allowed_materials s ++ material_rows jid args) s).
Proof.
  revert created s. induction args as [|[m i|i] args IH]; intros created s Hall.
  - simpl. unfold ret. rewrite !app_nil_r. by destruct s.
  - simpl. unfold bind at 1, modify. rewrite IH.
    + by rewrite set_job_allowed_materials_app, <-app_assoc.
    + intros i' Hi'. apply (Hall i'). by apply list_elem_of_further.
  - destruct (Hall i). apply list_elem_of_here.
Qed.

Lemma insert_job_allowed_materials_loop_Raised jid args created s :
  (∃ i, NotMaterial i ∈ args) →
  insert_job_allowed_materials_loop jid args created s =
    Raised (InvalidParameter
      "The elements of the 'allowed_materials' parameter needs to be PrinterMaterial objects")
      (set_job_allowed_materials (job_allowed_materials s ++ material_rows jid args) s).
Proof.
  revert created s. induction args as [|[m i|i] args IH]; intros created s [i' Hi'].
  - by apply elem_of_nil in Hi'.
  - simpl. unfold bind at 1, modify. rewrite IH.
    + by rewrite set_job_allowed_materials_app.
    + exists i'. by apply elem_of_cons in Hi' as [?|?].
  - simpl. unfold raise. rewrite app_nil_r. by destruct s.
Qed.

Lemma not_material_dec (args : list AllowedMaterialArg) :
  (∀ i, NotMaterial i ∉ args) ∨ (∃ i, NotMaterial i ∈ args).
Proof.
  induction args as [|[m i|i] args [IH|[i' IH]]].
  - left. by intros i Hi%elem_of_nil.
  - left. intros i' [?|?]%elem_of_cons; [done|]. by apply (IH i').
  - right. exists i'. by apply list_elem_of_further.
  - right. exists i. apply list_elem_of_here.
  - right. exists i. apply list_elem_of_here.
Qed.

(** X20.  [insert_job_allowed_materials] adds one row per element, in
    order, at the end of the table and returns the rows it made; at the
    first element that is not a material it raises [InvalidParameter], and
    the rows of the elements before that one stay added.  No other table
    changes. *)
Theorem insert_job_allowed_materials_rows jid args s :
  let s' := set_job_allowed_materials
              (job_allowed_materials s ++ material_rows jid args) s in
  ((∀ i, NotMaterial i ∉ args) →
   length (material_rows jid args) = length args ∧
   insert_job_allowed_materials jid args s = Ok (material_rows jid args) s') ∧
  ((∃ i, NotMaterial i ∈ args) →
   (length (material_rows jid args) < length args)%nat ∧
   ∃ msg, insert_job_allowed_materials jid args s = Raised (InvalidParameter msg) s').
Proof.
  simpl. unfold insert_job_allowed_materials. split.
  - intros Hall. split; [|by rewrite insert_job_allowed_materials_loop_Ok].
    induction args as [|[m i|i] args IH]; [done| |].
    + simpl. f_equal. apply IH. intros i' Hi'. apply (Hall i').
      by apply list_elem_of_further.
    + destruct (Hall i). apply list_elem_of_here.
  - intros Hex. split; [|by rewrite insert_job_allowed_materials_loop_Raised; eauto].
    induction args as [|[m i|i] args IH].
    + destruct Hex as [i Hi]. by apply elem_of_nil in Hi.
    + simpl. apply ->Nat.succ_lt_mono. apply IH. destruct Hex as [i' Hi'].
      exists i'. by apply elem_of_cons in Hi' as [?|?].
    + simpl. lia.
Qed.

Lemma material_rows_filter jid jid' o args :
  filter (λ r, JobAllowedMaterial.idJob r = jid' ∧
               index_matches o (JobAllowedMaterial.extruderIndex r))
         (material_rows jid args) =
  if decide (jid' = jid)
  then filter (λ r, index_matches o (JobAllowedMaterial.extruderIndex r))
              (material_rows jid args)
  else [].
Proof.
  induction args as [|[m i|i] args IH]; simpl; [by case_decide| |by case_decide].
  destruct (decide (jid' = jid)) as [->|Hne].
  - destruct (decide (index_matches o i)) as [Hi|Hi].
    + rewrite !filter_cons_True by done. by rewrite IH.
    + rewrite !filter_cons_False by (simpl; tauto). done.
  - rewrite filter_cons_False by (simpl; intros [? _]; congruence). done.
Qed.

(** X21.  After [insert_job_allowed_materials] has returned, the materials
    queried for the job are those queried before followed by the inserted
    ones for the index asked for, every inserted material is found by the
    matcher's query at its index and lists the job among its jobs, and the
    allowed materials of every other job are as before. *)
Theorem insert_job_allowed_materials_read_back jid args rows s s' :
  insert_job_allowed_materials jid args s = Ok rows s' →
  rows = material_rows jid args ∧
  (∀ o, get_job_allowed_materials_of s' jid o =
        get_job_allowed_materials_of s jid o ++
        (JobAllowedMaterial.idMaterial <$>
           filter (λ r, index_matches o (JobAllowedMaterial.extruderIndex r)) rows)) ∧
  (∀ m i, IsMaterial m i ∈ args →
          m ∈ get_job_allowed_materials s' jid i ∧
          jid ∈ get_jobs_by_material s' m (Some i)) ∧
  (∀ jid' o, jid' ≠ jid →
             get_job_allowed_materials_of s' jid' o = get_job_allowed_materials_of s jid' o).
Proof.
  intros Hrun. unfold insert_job_allowed_materials in Hrun.
  destruct (not_material_dec args) as [Hall|Hex];
    [|by rewrite insert_job_allowed_materials_loop_Raised in Hrun].
  rewrite insert_job_allowed_materials_loop_Ok in Hrun by done.
  injection Hrun as <- <-. simpl.
  assert (Hrow : ∀ m i, IsMaterial m i ∈ args →
            JobAllowedMaterial.mk jid m i ∈ material_rows jid args).
  { clear -Hall. induction args as [|[m' i'|i'] args IH]; intros m i Hin.
    - by apply elem_of_nil in Hin.
    - simpl. apply elem_of_cons in Hin as [[= -> ->]|Hin]; [apply list_elem_of_here|].
      apply list_elem_of_further, IH; [|done].
      intros i0 Hi0. apply (Hall i0). by apply list_elem_of_further.
    - destruct (Hall i'). apply list_elem_of_here. }
  split_and!; try done.
  - intros o. unfold get_job_allowed_materials_of. simpl.
    rewrite filter_app, fmap_app, material_rows_filter. by rewrite decide_True.
  - intros m i Hin. split.
    + unfold get_job_allowed_materials. apply list_elem_of_fmap.
      exists (JobAllowedMaterial.mk jid m i). split; [done|].
      apply list_elem_of_filter. split; [done|]. simpl.
      apply elem_of_app. right. by apply Hrow.
    + unfold get_jobs_by_material. apply list_elem_of_fmap.
      exists (JobAllowedMaterial.mk jid m i). split; [done|].
      apply list_elem_of_filter. split; [done|]. simpl.
      apply elem_of_app. right. by apply Hrow.
  - intros jid' o Hne. unfold get_job_allowed_materials_of. simpl.
    rewrite filter_app, fmap_app, material_rows_filter.
    rewrite decide_False by done. by rewrite app_nil_r.
Qed.

Lemma insert_job_allowed_materials_read_back_witness :
  PLA ∈ get_job_allowed_materials
          (store_after empty_fleet
             (insert_job_allowed_materials 7 [IsMaterial PLA 0; IsMaterial ABS 1] empty_fleet))
          7 0.
Proof.
  destruct (insert_job_allowed_materials_read_back 7 [IsMaterial PLA 0; IsMaterial ABS 1]
              (material_rows 7 [IsMaterial PLA 0; IsMaterial ABS 1]) empty_fleet
              (store_after empty_fleet
                 (insert_job_allowed_materials 7 [IsMaterial PLA 0; IsMaterial ABS 1]
                    empty_fleet)))
    as (_ & _ & Hfound & _); [reflexivity|].
  apply (Hfound PLA 0). apply list_elem_of_here.
Defined.

(** ** Leaving and re-entering the queue *)

Lemma enqueue_printing_or_finished_job_printers s jid job max_priority b s' :
  jobs s !! jid = Some job →
  Job.idState job = Printing ∨ Job.idState job = Finished →
  check_can_be_printed_job jid s = Ok b s →
  enqueue_printing_or_finished_job jid max_priority s = Ok tt s' →
  printers s' =
    match assigned_printer s jid with
    | Some (pos, printer) =>
        <[pos := Printer.mk (Printer.id printer) (Printer.idState printer) None]>
          (printers s)
    | None => printers s
    end.
Proof.
  intros Hjob Hst Hchk.
  assert (¬ (Job.idState job ≠ Printing ∧ Job.idState job ≠ Finished)) as Hdec
    by (intros [??]; by destruct Hst).
  clear Hst. unfold enqueue_printing_or_finished_job. run_monad.
  rewrite Hchk. simpl. intros [= <-]. simpl.
  rewrite ?setattr_printers by done.
  rewrite setattr_release_printers, !assigned_printer_setattr by done.
  by rewrite !setattr_printers by done.
Qed.

Lemma reprint_done_job_printers s jid job b s' :
  jobs s !! jid = Some job →
  Job.idState job = Done →
  check_can_be_printed_job jid s = Ok b s →
  reprint_done_job jid s = Ok tt s' →
  printers s' =
    match assigned_printer s jid with
    | Some (pos, printer) =>
        <[pos := Printer.mk (Printer.id printer) (Printer.idState printer) None]>
          (printers s)
    | None => printers s
    end.
Proof.
  intros Hjob Hst Hchk. unfold reprint_done_job. run_monad.
  rewrite Hchk. simpl. intros [= <-]. simpl.
  rewrite ?setattr_printers by done.
  rewrite setattr_release_printers, !assigned_printer_setattr by done.
  by rewrite !setattr_printers by done.
Qed.

Lemma reset_used_rows jid (rows : list JobExtruder.t) r :
  r ∈ filter (λ r, JobExtruder.idJob r = jid ∧
                   index_matches None (JobExtruder.extruderIndex r))
             (reset_used jid <$> rows) →
  JobExtruder.idUsedExtruderType r = None ∧ JobExtruder.idUsedMaterial r = None.
Proof.
  intros [[Hid _] Hin]%list_elem_of_filter.
  apply list_elem_of_fmap in Hin as (r0 & -> & _). unfold reset_used in *.
  destruct (decide (JobExtruder.idJob r0 = jid)); [done|]. done.
Qed.

(** X22.  Whenever [enqueue_printing_or_finished_job] or [reprint_done_job]
    returns, the job is back to a fresh start: its timestamps and its
    estimated time are null and its progress is zero, the used extruder type
    and material of each of its extruder rows are null while the rows of
    other jobs are untouched, and the printer that held the job has no
    current job, so that no printer holds it when only one did. *)
Theorem requeue_resets_job jid max_priority s s' :
  enqueue_printing_or_finished_job jid max_priority s = Ok tt s' ∨
  reprint_done_job jid s = Ok tt s' →
  (∃ job', jobs s' !! jid = Some job' ∧
           Job.startedAt job' = None ∧ Job.finishedAt job' = None ∧
           Job.estimatedTimeLeft job' = None ∧ Job.progress job' = 0) ∧
  job_extruders s' = reset_used jid <$> job_extruders s ∧
  (∀ r, r ∈ get_job_extruders s' jid None →
        JobExtruder.idUsedExtruderType r = None ∧ JobExtruder.idUsedMaterial r = None) ∧
  printers s' =
    match assigned_printer s jid with
    | Some (pos, printer) =>
        <[pos := Printer.mk (Printer.id printer) (Printer.idState printer) None]>
          (printers s)
    | None => printers s
    end ∧
  (held_once s jid → assigned_printer s' jid = None).
Proof.
  intros Hrun.
  assert (∃ job', jobs s' !! jid = Some job' ∧
            Job.startedAt job' = None ∧ Job.finishedAt job' = None ∧
            Job.estimatedTimeLeft job' = None ∧ Job.progress job' = 0) as Hrow.
  { destruct Hrun as [Hrun|Hrun].
    - destruct (enqueue_printing_or_finished_job_Ok_inv _ _ _ _ Hrun)
        as (job & b & Hjob & Hst & Hchk).
      destruct (enqueue_printing_or_finished_job_Ok s jid job max_priority b Hjob Hst Hchk)
        as (s1 & Hrun1 & Hjobs & _).
      rewrite Hrun in Hrun1. injection Hrun1 as <-.
      eexists. rewrite Hjobs, lookup_insert_eq. by split_and!.
    - destruct (reprint_done_job_Ok_inv _ _ _ Hrun) as (job & b & Hjob & Hst & Hchk).
      destruct (reprint_done_job_Ok s jid job b Hjob Hst Hchk) as (s1 & Hrun1 & Hjobs & _).
      rewrite Hrun in Hrun1. injection Hrun1 as <-.
      eexists. rewrite Hjobs, lookup_insert_eq. by split_and!. }
  assert (job_extruders s' = reset_used jid <$> job_extruders s) as Hje.
  { destruct Hrun as [Hrun|Hrun].
    - destruct (enqueue_printing_or_finished_job_Ok_inv _ _ _ _ Hrun)
        as (job & b & Hjob & Hst & Hchk).
      destruct (enqueue_printing_or_finished_job_Ok s jid job max_priority b Hjob Hst Hchk)
        as (s1 & Hrun1 & _ & Hje & _).
      rewrite Hrun in Hrun1. by injection Hrun1 as <-.
    - destruct (reprint_done_job_Ok_inv _ _ _ Hrun) as (job & b & Hjob & Hst & Hchk).
      destruct (reprint_done_job_Ok s jid job b Hjob Hst Hchk) as (s1 & Hrun1 & _ & Hje & _).
      rewrite Hrun in Hrun1. by injection Hrun1 as <-. }
  assert (printers s' =
    match assigned_printer s jid with
    | Some (pos, printer) =>
        <[pos := Printer.mk (Printer.id printer) (Printer.idState printer) None]>
          (printers s)
    | None => printers s
    end) as Hpr.
  { destruct Hrun as [Hrun|Hrun].
    - destruct (enqueue_printing_or_finished_job_Ok_inv _ _ _ _ Hrun)
        as (job & b & Hjob & Hst & Hchk).
      by apply (enqueue_printing_or_finished_job_printers s jid job max_priority b).
    - destruct (reprint_done_job_Ok_inv _ _ _ Hrun) as (job & b & Hjob & Hst & Hchk).
      by apply (reprint_done_job_printers s jid job b). }
  split_and!; try done.
  - intros r. unfold get_job_extruders. rewrite Hje. apply reset_used_rows.
  - intros Honce. unfold assigned_printer at 1. rewrite Hpr. by apply released_not_held.
Qed.

Lemma requeue_resets_job_witness :
  assigned_printer (run [RequeueJob 1 false] one_finished) 1 = None.
Proof.
  destruct (requeue_resets_job 1 false one_finished (run [RequeueJob 1 false] one_finished))
    as (_ & _ & _ & _ & Hfree).
  - left. vm_compute. reflexivity.
  - apply Hfree. intros pos1 pos2 p1 p2 H1 H2 _ _.
    apply lookup_lt_Some in H1, H2. vm_compute in H1, H2. lia.
Defined.

(** ** The length of the queue *)

Lemma filter_length_replace (P : Z * Job.t → Prop) `{∀ x, Decision (P x)}
    (m : gmap Z Job.t) k j j' :
  m !! k = Some j →
  (length (filter P (map_to_list (<[k := j']> m))) + (if decide (P (k, j)) then 1 else 0) =
   length (filter P (map_to_list m)) + (if decide (P (k, j')) then 1 else 0))%nat.
Proof.
  intros Hj.
  rewrite <-(insert_delete_eq m k j').
  rewrite (Permutation_length
             (filter_Permutation P _ _ (map_to_list_insert (delete k m) k j'
                                           (lookup_delete_eq m k)))).
  rewrite <-(Permutation_length
               (filter_Permutation P _ _ (map_to_list_delete m k j Hj))).
  rewrite !filter_cons. do 2 case_decide; simpl; lia.
Qed.

Lemma count_jobs_in_queue_replace s s' jid job job' :
  jobs s !! jid = Some job → jobs s' = <[jid := job']> (jobs s) →
  ∀ only_can_be_printed,
    (count_jobs_in_queue s' only_can_be_printed +
       (if decide (Job.idState job = Waiting ∧
                   (only_can_be_printed = true → Job.canBePrinted job = true))
        then 1 else 0) =
     count_jobs_in_queue s only_can_be_printed +
       (if decide (Job.idState job' = Waiting ∧
                   (only_can_be_printed = true → Job.canBePrinted job' = true))
        then 1 else 0))%nat.
Proof.
  intros Hjob Hjobs [|]; unfold count_jobs_in_queue, printable_waiting; rewrite Hjobs.
  - pose proof (filter_length_replace
      (λ kj, Job.idState kj.2 = Waiting ∧ Job.canBePrinted kj.2 = true)
      (jobs s) jid job job' Hjob) as Hlen. simpl in Hlen.
    repeat case_decide; first [lia | exfalso; intuition congruence].
  - pose proof (filter_length_replace
      (λ kj, Job.idState kj.2 = Waiting) (jobs s) jid job job' Hjob) as Hlen.
    simpl in Hlen. repeat case_decide; first [lia | exfalso; intuition congruence].
Qed.

(** X23.  Whenever [enqueue_created_job], [reprint_done_job] or
    [enqueue_printing_or_finished_job] returns, [count_jobs_in_queue]
    without the printable filter has grown by exactly one, and with the
    filter by one when some working printer passes the index checks of the
    job and by nothing otherwise. *)
Theorem entering_queue_counts jid max_priority s s' :
  enqueue_created_job jid s = Ok tt s' ∨
  reprint_done_job jid s = Ok tt s' ∨
  enqueue_printing_or_finished_job jid max_priority s = Ok tt s' →
  count_jobs_in_queue s' false = S (count_jobs_in_queue s false) ∧
  count_jobs_in_queue s' true =
    (count_jobs_in_queue s true + if isPrintable s jid then 1 else 0)%nat.
Proof.
  intros Hrun.
  assert (∃ job job', jobs s !! jid = Some job ∧ Job.idState job ≠ Waiting ∧
            jobs s' = <[jid := job']> (jobs s) ∧ Job.idState job' = Waiting ∧
            Job.canBePrinted job' = isPrintable s jid)
    as (job & job' & Hjob & Hst & Hjobs & Hst' & Hcan).
  { destruct Hrun as [Hrun|[Hrun|Hrun]].
    - destruct (enqueue_created_job_Ok_inv _ _ _ Hrun) as (job & b & Hjob & Hst & Hchk).
      destruct (enqueue_created_job_Ok s jid job b Hjob Hst Hchk) as (s1 & Hrun1 & Hjobs & _).
      rewrite Hrun in Hrun1. injection Hrun1 as <-.
      destruct (check_can_be_printed_job_sound _ _ _ _ Hchk) as [_ ->].
      eexists job, _. split_and!; [done|congruence|exact Hjobs|done..].
    - destruct (reprint_done_job_Ok_inv _ _ _ Hrun) as (job & b & Hjob & Hst & Hchk).
      destruct (reprint_done_job_Ok s jid job b Hjob Hst Hchk) as (s1 & Hrun1 & Hjobs & _).
      rewrite Hrun in Hrun1. injection Hrun1 as <-.
      destruct (check_can_be_printed_job_sound _ _ _ _ Hchk) as [_ ->].
      eexists job, _. split_and!; [done|congruence|exact Hjobs|done..].
    - destruct (enqueue_printing_or_finished_job_Ok_inv _ _ _ _ Hrun)
        as (job & b & Hjob & Hst & Hchk).
      destruct (enqueue_printing_or_finished_job_Ok s jid job max_priority b Hjob Hst Hchk)
        as (s1 & Hrun1 & Hjobs & _).
      rewrite Hrun in Hrun1. injection Hrun1 as <-.
      destruct (check_can_be_printed_job_sound _ _ _ _ Hchk) as [_ ->].
      eexists job, _. split_and!; [done| |exact Hjobs|done..].
      destruct Hst; congruence. }
  pose proof (count_jobs_in_queue_replace s s' jid job job' Hjob Hjobs false) as Hall.
  pose proof (count_jobs_in_queue_replace s s' jid job job' Hjob Hjobs true) as Hcbp.
  rewrite decide_False in Hall by (intros [? _]; congruence).
  rewrite decide_False in Hcbp by (intros [? _]; congruence).
  rewrite decide_True in Hall by (split; [done|discriminate]).
  split; [lia|].
  destruct (isPrintable s jid).
  - rewrite decide_True in Hcbp by (split; [done|by intros _]). lia.
  - rewrite decide_False in Hcbp; [lia|]. intros [_ Hc]. specialize (Hc eq_refl). congruence.
Qed.

Lemma entering_queue_counts_witness :
  count_jobs_in_queue (run [RequeueJob 1 true] one_printing) false
    = S (count_jobs_in_queue one_printing false) ∧
  count_jobs_in_queue (run [RequeueJob 1 true] one_printing) true =
    (count_jobs_in_queue one_printing true + if isPrintable one_printing 1 then 1 else 0)%nat.
Proof.
  apply (entering_queue_counts 1 true one_printing (run [RequeueJob 1 true] one_printing)).
  right; right. vm_compute. reflexivity.
Defined.

Lemma set_printing_job_Ok_inv jid now s s' :
  set_printing_job jid now s = Ok tt s' →
  ∃ job job', jobs s !! jid = Some job ∧ Job.idState job = Waiting ∧
              Job.canBePrinted job = true ∧ assigned_printer s jid ≠ None ∧
              jobs s' = <[jid := job']> (jobs s) ∧ Job.idState job' = Printing ∧
              Job.priority_i job' = None.
Proof.
  unfold set_printing_job, bind at 1, get_job.
  destruct (jobs s !! jid) as [job|] eqn:Hjob; [|done].
  destruct (Job.canBePrinted job) eqn:Hcan; simpl; [|done].
  case_bool_decide as Hst; simpl; [done|].
  run_monad.
  destruct (assigned_printer s jid) as [[pos printer]|] eqn:Hap; [|done].
  destruct (files s !! Job.idFile job) as [file|]; [|done].
  intros [= <-].
  eexists job, _. rewrite ?setattr_jobs, !alter_alter_eq, (alter_alt_Some _ _ _ _ Hjob).
  by split_and!.
Qed.

(** X24.  Whenever [set_printing_job] returns, the job was a Waiting job
    that could be printed and had an assigned printer, it now is Printing
    without a priority, and both counts of [count_jobs_in_queue] have
    dropped by exactly one. *)
Theorem starting_leaves_queue jid now s s' :
  set_printing_job jid now s = Ok tt s' →
  (∃ job, jobs s !! jid = Some job ∧ Job.idState job = Waiting ∧
          Job.canBePrinted job = true) ∧
  assigned_printer s jid ≠ None ∧
  Job.idState <$> jobs s' !! jid = Some Printing ∧
  Job.priority_i <$> jobs s' !! jid = Some None ∧
  ∀ only_can_be_printed,
    S (count_jobs_in_queue s' only_can_be_printed) =
    count_jobs_in_queue s only_can_be_printed.
Proof.
  intros (job & job' & Hjob & Hst & Hcan & Hap & Hjobs & Hst' & Hp')%set_printing_job_Ok_inv.
  split_and!; try done; [by eauto|by rewrite Hjobs, lookup_insert_eq, <-Hst'
                        |by rewrite Hjobs, lookup_insert_eq, <-Hp'|].
  intros o. pose proof (count_jobs_in_queue_replace s s' jid job job' Hjob Hjobs o) as Hlen.
  rewrite decide_True in Hlen by (split; [done|by intros _]).
  rewrite decide_False in Hlen by (intros [? _]; congruence). lia.
Qed.

Lemma starting_leaves_queue_witness :
  S (count_jobs_in_queue (run [StartPrinting 1 10] one_assigned) true) =
    count_jobs_in_queue one_assigned true ∧
  S (count_jobs_in_queue (run [StartPrinting 1 10] one_assigned) false) =
    count_jobs_in_queue one_assigned false.
Proof.
  destruct (starting_leaves_queue 1 10 one_assigned (run [StartPrinting 1 10] one_assigned))
    as (_ & _ & _ & _ & Hcount); [vm_compute; reflexivity|].
  split; apply Hcount.
Defined.

(** ** Creating a job *)






(** ** Assigning a job to a printer *)

(** X26.  [assign_job_to_printer] refuses a job that cannot be printed and a
    printer that already has a current job: it raises [InvalidParameter]
    and leaves the store as it was. *)
Theorem assign_job_to_printer_refused s pos jid printer job :
  printers s !! pos = Some printer →
  jobs s !! jid = Some job →
  Job.canBePrinted job = false ∨ Printer.idCurrentJob printer ≠ None →
  ∃ msg, assign_job_to_printer pos jid s = Raised (InvalidParameter msg) s.
Proof.
  intros Hprinter Hjob Hbad. unfold assign_job_to_printer, bind at 1, get_printer.
  rewrite Hprinter. unfold bind at 1, get_job. rewrite Hjob.
  case_decide; [by eexists|].
  destruct (Job.canBePrinted job) eqn:Hcan; simpl; [|by eexists].
  destruct Hbad as [?|Hbusy]; [done|].
  rewrite decide_True by done. by eexists.
Qed.

Lemma assign_job_to_printer_refused_witness :
  ∃ msg, assign_job_to_printer 0 1 one_assigned = Raised (InvalidParameter msg) one_assigned.
Proof.
  apply (assign_job_to_printer_refused one_assigned 0 1 (Printer.mk 2 1 (Some 1))
           (Job.mk "part" Waiting 1 1 (Some 1) true 0 0 None None None false None));
    [reflexivity|reflexivity|].
  right. discriminate.
Defined.

(** X27.  [assign_job_to_printer] does not look at whether the job already
    has a printer: a Waiting job that can be printed is accepted by a second
    free printer after a first one has taken it, and both printers then
    hold it as their current job. *)
Theorem assign_job_to_two_printers s pos1 pos2 p1 p2 jid job :
  pos1 ≠ pos2 →
  printers s !! pos1 = Some p1 → printers s !! pos2 = Some p2 →
  Printer.idCurrentJob p1 = None → Printer.idCurrentJob p2 = None →
  jobs s !! jid = Some job →
  Job.idState job = Waiting → Job.canBePrinted job = true →
  ∃ s1 s2, assign_job_to_printer pos1 jid s = Ok pos1 s1 ∧
           assign_job_to_printer pos2 jid s1 = Ok pos2 s2 ∧
           Printer.idCurrentJob <$> printers s2 !! pos1 = Some (Some jid) ∧
           Printer.idCurrentJob <$> printers s2 !! pos2 = Some (Some jid) ∧
           ¬ held_once s2 jid.
Proof.
  intros Hne Hp1 Hp2 Hfree1 Hfree2 Hjob Hst Hcan.
  pose proof (lookup_lt_Some _ _ _ Hp1) as Hlt1.
  pose proof (lookup_lt_Some _ _ _ Hp2) as Hlt2.
  set (s1 := set_printers (<[pos1 := Printer.set_idCurrentJob (Some jid) p1]> (printers s)) s).
  set (s2 := set_printers (<[pos2 := Printer.set_idCurrentJob (Some jid) p2]> (printers s1)) s1).
  assert (Hrun1 : assign_job_to_printer pos1 jid s = Ok pos1 s1).
  { unfold assign_job_to_printer, bind at 1, get_printer. rewrite Hp1.
    unfold bind at 1, get_job. rewrite Hjob.
    rewrite decide_False by (intros ?; done). rewrite Hcan. simpl.
    rewrite decide_False by (intros ?; done). done. }
  assert (Hp2' : printers s1 !! pos2 = Some p2).
  { unfold s1. simpl. by rewrite list_lookup_insert_ne. }
  assert (Hrun2 : assign_job_to_printer pos2 jid s1 = Ok pos2 s2).
  { unfold assign_job_to_printer, bind at 1, get_printer. rewrite Hp2'.
    unfold bind at 1, get_job.
    replace (jobs s1 !! jid) with (Some job) by done.
    rewrite decide_False by (intros ?; done). rewrite Hcan. simpl.
    rewrite decide_False by (intros ?; done). done. }
  assert (H1 : printers s2 !! pos1 = Some (Printer.set_idCurrentJob (Some jid) p1)).
  { unfold s2, s1. simpl. rewrite list_lookup_insert_ne by done.
    by rewrite list_lookup_insert_eq. }
  assert (H2 : printers s2 !! pos2 = Some (Printer.set_idCurrentJob (Some jid) p2)).
  { unfold s2, s1. simpl. rewrite list_lookup_insert_eq; [done|].
    by rewrite length_insert. }
  exists s1, s2. split_and!; try done.
  - by rewrite H1.
  - by rewrite H2.
  - intros Honce. by apply Hne, (Honce pos1 pos2 _ _ H1 H2).
Qed.

Lemma assign_job_to_two_printers_witness :
  ∃ s1 s2,
    assign_job_to_printer 0 1
      (two_printers_with (Job.set_canBePrinted true (waiting_job 1)) None) = Ok 0%nat s1 ∧
    assign_job_to_printer 1 1 s1 = Ok 1%nat s2 ∧
    ¬ held_once s2 1.
Proof.
  destruct (assign_job_to_two_printers
              (two_printers_with (Job.set_canBePrinted true (waiting_job 1)) None) 0 1
              (Printer.mk 1 1 None) (Printer.mk 2 1 None) 1
              (Job.set_canBePrinted true (waiting_job 1)))
    as (s1 & s2 & Hrun1 & Hrun2 & _ & _ & Hheld); [lia|reflexivity..|].
  exists s1, s2. split_and!; [exact Hrun1|exact Hrun2|exact Hheld].
Defined.

(** * Priority and state, transition by transition *)

(** C6.  In every state reachable through the operations of the job
    manager a job has a priority exactly when its state is Waiting, and the
    state any exposed operation leaves behind has the same property.
    Enqueueing a Created job, requeueing a Printing or Finished job and
    reprinting a Done job return whenever the matcher does, and whenever
    one of them returns, the job, which had no priority, is Waiting with a
    priority.  Starting a Waiting job that can be printed, has an assigned
    printer and has its file returns, and whenever [set_printing_job]
    returns, the job, which was Waiting with a priority, is Printing
    without one. *)
Theorem priority_iff_waiting s op :
  reachable s →
  coupled (jobs s) ∧
  coupled (jobs (store_after s (call op s))) ∧
  (∀ jid job b,
     jobs s !! jid = Some job → check_can_be_printed_job jid s = Ok b s →
     (Job.idState job = Created → ∃ s', enqueue_created_job jid s = Ok tt s') ∧
     (Job.idState job = Printing ∨ Job.idState job = Finished →
      ∀ max_priority, ∃ s', enqueue_printing_or_finished_job jid max_priority s = Ok tt s') ∧
     (Job.idState job = Done → ∃ s', reprint_done_job jid s = Ok tt s')) ∧
  (∀ jid s',
     enqueue_created_job jid s = Ok tt s' ∨
     reprint_done_job jid s = Ok tt s' ∨
     (∃ max_priority, enqueue_printing_or_finished_job jid max_priority s = Ok tt s') →
     ∃ job job' q,
       jobs s !! jid = Some job ∧ Job.idState job ≠ Waiting ∧ Job.priority_i job = None ∧
       jobs s' !! jid = Some job' ∧ Job.idState job' = Waiting ∧
       Job.priority_i job' = Some q) ∧
  (∀ jid job pos printer file now,
     jobs s !! jid = Some job → Job.idState job = Waiting →
     Job.canBePrinted job = true →
     assigned_printer s jid = Some (pos, printer) →
     files s !! Job.idFile job = Some file →
     ∃ s', set_printing_job jid now s = Ok tt s') ∧
  (∀ jid now s',
     set_printing_job jid now s = Ok tt s' →
     ∃ job job' q,
       jobs s !! jid = Some job ∧ Job.idState job = Waiting ∧ Job.priority_i job = Some q ∧
       jobs s' !! jid = Some job' ∧ Job.idState job' = Printing ∧
       Job.priority_i job' = None).
Proof.
  intros Hreach.
  destruct (reachable_invariants s Hreach) as [_ Hc].
  assert (Hout : ∀ jid job, jobs s !! jid = Some job → Job.idState job ≠ Waiting →
                            Job.priority_i job = None).
  { intros jid job Hjob Hst. destruct (Hc jid job Hjob) as [Hwait _].
    destruct (Job.priority_i job); [|done]. by destruct Hst, Hwait. }
  split_and!.
  - done.
  - by apply (reachable_invariants _ (reach_call s op Hreach)).
  - intros jid job b Hjob Hchk. split_and!.
    + intros Hst. destruct (enqueue_created_job_Ok s jid job b Hjob Hst Hchk) as (s' & Hrun & _).
      by exists s'.
    + intros Hst max_priority.
      destruct (enqueue_printing_or_finished_job_Ok s jid job max_priority b Hjob Hst Hchk)
        as (s' & Hrun & _).
      by exists s'.
    + intros Hst. destruct (reprint_done_job_Ok s jid job b Hjob Hst Hchk) as (s' & Hrun & _).
      by exists s'.
  - intros jid s' [Hrun|[Hrun|[max_priority Hrun]]].
    + destruct (enqueue_created_job_Ok_inv _ _ _ Hrun) as (job & b & Hjob & Hst & Hchk).
      destruct (enqueue_created_job_Ok s jid job b Hjob Hst Hchk) as (s1 & Hrun1 & Hjobs & _).
      rewrite Hrun in Hrun1. injection Hrun1 as <-.
      assert (Job.idState job ≠ Waiting) as Hnw by congruence.
      eexists job, _, _. rewrite Hjobs, lookup_insert_eq.
      split_and!; [done|done|by eapply Hout|done..].
    + destruct (reprint_done_job_Ok_inv _ _ _ Hrun) as (job & b & Hjob & Hst & Hchk).
      destruct (reprint_done_job_Ok s jid job b Hjob Hst Hchk) as (s1 & Hrun1 & Hjobs & _).
      rewrite Hrun in Hrun1. injection Hrun1 as <-.
      assert (Job.idState job ≠ Waiting) as Hnw by congruence.
      eexists job, _, _. rewrite Hjobs, lookup_insert_eq.
      split_and!; [done|done|by eapply Hout|done..].
    + destruct (enqueue_printing_or_finished_job_Ok_inv _ _ _ _ Hrun)
        as (job & b & Hjob & Hst & Hchk).
      destruct (enqueue_printing_or_finished_job_Ok s jid job max_priority b Hjob Hst Hchk)
        as (s1 & Hrun1 & Hjobs & _).
      rewrite Hrun in Hrun1. injection Hrun1 as <-.
      assert (Job.idState job ≠ Waiting) as Hnw by (destruct Hst; congruence).
      eexists job, _, _. rewrite Hjobs, lookup_insert_eq.
      split_and!; [done|done|by eapply Hout|done..].
  - intros jid job pos printer file now Hjob Hst Hcan Hprinter Hfile.
    destruct (set_printing_job_runs s jid job pos printer file now) as (s' & Hrun & _);
      try done.
    by exists s'.
  - intros jid now s' Hrun.
    destruct (set_printing_job_Ok_inv _ _ _ _ Hrun)
      as (job & job' & Hjob & Hst & _ & _ & Hjobs & Hst' & Hp').
    destruct (Hc jid job Hjob) as [_ Hprio].
    destruct (Job.priority_i job) as [q|] eqn:Hq; [|by destruct (Hprio Hst)].
    exists job, job', q. rewrite Hjobs, lookup_insert_eq. by split_and!.
Qed.

Lemma priority_iff_waiting_witness :
  reachable one_assigned ∧
  coupled (jobs one_assigned) ∧
  coupled (jobs (store_after one_assigned (call (StartPrinting 1 10) one_assigned))) ∧
  ∃ s' job job' q,
    set_printing_job 1 10 one_assigned = Ok tt s' ∧
    jobs one_assigned !! 1 = Some job ∧ Job.idState job = Waiting ∧
    Job.priority_i job = Some q ∧
    jobs s' !! 1 = Some job' ∧ Job.idState job' = Printing ∧ Job.priority_i job' = None.
Proof.
  assert (Hreach : reachable one_assigned)
    by (apply run_reachable, one_waiting_reachable).
  split; [exact Hreach|].
  destruct (priority_iff_waiting one_assigned (StartPrinting 1 10) Hreach)
    as (Hbefore & Hafter & _ & _ & Hstart & Hstarted).
  split; [exact Hbefore|]. split; [exact Hafter|].
  destruct (Hstart 1 (Job.mk "part" Waiting 1 1 (Some 1) true 0 0 None None None false None)
              0%nat (Printer.mk 2 1 (Some 1)) (File.mk (Some 3600)) 10)
    as [s' Hrun]; [reflexivity..|].
  destruct (Hstarted 1 10 s' Hrun) as (job & job' & q & Hjob & Hst & Hq & Hjob' & Hst' & Hq').
  exists s', job, job', q.
  split_and!; [exact Hrun|exact Hjob|exact Hst|exact Hq|exact Hjob'|exact Hst'|exact Hq'].
Defined.
